(** * RecurrentLidarNet: the control node of [hg_dagger.py]

    A shallow embedding of [AutonomousNode]: the two ring buffers filled by
    [lidar_callback], the inference adapter [dnn_output], the affine
    denormalisation [linear_map], the mode toggle [button_callback], the
    bag recorder ([_open_bag], [_close_bag], [sensor_cb]) and the periodic
    [control_loop].

    Conventions of the model.
    - A floating-point value is the rational it denotes ([Q]).  Where the
      source fixes the format of a value the model rounds to that format:
      the timestamp of a scan is computed in binary64 and the arrays of
      [dnn_output] are float32 ([Ieee.binary64], [Ieee.float32], to nearest,
      ties to even).  The arithmetic of [linear_map] and of the command is
      exact; module [Binary64] re-evaluates its numeric examples on IEEE
      binary64.  There is no NaN or infinity: a reading that is NaN or
      infinite in a LaserScan message is [None] in [ranges], and the
      exponent range of the formats is unbounded above (a timestamp is at
      most 2^31 + 5; float32 overflows at 2^128).
    - An exception is a value of [exn]; a method body is a computation in the
      monad [M], which threads the node's attributes and stops at the first
      [Raise], keeping the attributes as they were at that point.
    - The ROS runtime, the bag writer and the TFLite interpreter are outside
      the program.  What they return on one callback is the [env] argument of
      that callback; what the node asks of them is appended to [trace].
    - The lock around the buffers and the wall-clock bookkeeping of the
      deadline check ([start_ts], [init_ts], [recorded_ts]) are not modelled. *)

From Stdlib Require Import List ZArith QArith Qround Qabs Bool Lia Lqa PrimFloat.
Import ListNotations.

Set Warnings "-inexact-float".

(** ** Python exceptions and results *)

Module Py.

Inductive exn : Set :=
| ZeroDivisionError
| ValueError
| IndexError
| AttributeError
| RuntimeError.

Inductive result (A : Type) : Type :=
| Ok (a : A)
| Raise (x : exn).

Arguments Ok {A} a.
Arguments Raise {A} x.

Definition rbind {A B : Type} (r : result A) (k : A -> result B) : result B :=
  match r with
  | Ok a => k a
  | Raise x => Raise x
  end.

(** [a / b] on floats: Python raises on a zero divisor. *)
Definition truediv (a b : Q) : result Q :=
  if Qeq_bool b 0 then Raise ZeroDivisionError else Ok (a / b).

End Py.
Export Py.

(** ** Rounding to a binary floating-point format *)

Module Ieee.

(** [2^e] for an integer [e]. *)
Definition pow2 (e : Z) : Q :=
  match e with
  | Z0 => 1
  | Zpos p => inject_Z (2 ^ Zpos p)
  | Zneg p => 1 # (2 ^ p)
  end.

(** The integer part of the binary logarithm of a positive rational. *)
Definition ilog2 (q : Q) : Z :=
  let e0 := (Z.log2 (Qnum q) - Z.log2 (Zpos (Qden q)))%Z in
  if Qle_bool (pow2 e0) q then e0 else (e0 - 1)%Z.

(** The nearest integer, the even one of two that are equally near. *)
Definition rint (q : Q) : Z :=
  let f := Qfloor q in
  match Qcompare (q - inject_Z f) (1 # 2) with
  | Lt => f
  | Gt => (f + 1)%Z
  | Eq => if Z.even f then f else (f + 1)%Z
  end.

(** The value nearest to [q] in the format with [prec] bits of precision
    whose least normal exponent is [emin]; below [2^emin] the spacing stays
    that of the subnormals. *)
Definition round (prec emin : Z) (q : Q) : Q :=
  if Qeq_bool q 0 then 0
  else
    let e := Z.max (ilog2 (Qabs q)) emin in
    let ulp := pow2 (e - (prec - 1)) in
    Qred (inject_Z (rint (q / ulp)) * ulp).

(** Python's [float] and numpy's [float32]. *)
Definition binary64 : Q -> Q := round 53 (-1022).
Definition float32 : Q -> Q := round 24 (-126).

End Ieee.

Declare Scope result_scope.
Delimit Scope result_scope with result.
Notation "x <- r ;; k" := (rbind r (fun x => k))
  (at level 61, r at next level, right associativity) : result_scope.

(** ** [linear_map] (a static method, lines 310-315) *)

Definition linear_map (x x_min x_max y_min y_max : Q) : result Q :=
  if Qeq_bool x_max x_min then
    truediv (y_max + y_min) 2
  else
    (q <- truediv (x - x_min) (x_max - x_min) ;;
     Ok (q * (y_max - y_min) + y_min))%result.

(** The same two definitions on binary64, the carrier of Python's [float]. *)

Module Binary64.

Definition truediv (a b : float) : result float :=
  if PrimFloat.eqb b 0%float then Raise ZeroDivisionError
  else Ok (PrimFloat.div a b).

Definition linear_map (x x_min x_max y_min y_max : float) : result float :=
  if PrimFloat.eqb x_max x_min then
    truediv (PrimFloat.add y_max y_min) 2%float
  else
    (q <- truediv (PrimFloat.sub x x_min) (PrimFloat.sub x_max x_min) ;;
     Ok (PrimFloat.add (PrimFloat.mul q (PrimFloat.sub y_max y_min)) y_min))%result.

End Binary64.

(** ** The numpy operations the node uses *)

Module Np.

(** [np.nan_to_num(a, nan=0.0, posinf=0.0, neginf=0.0)]. *)
Definition nan_to_num (a : list (option Q)) : list Q :=
  map (fun v => match v with Some q => q | None => 0 end) a.

(** [np.linspace(0, stop, num, dtype=int)] for integers [stop] and [num]:
    the step [stop / (num - 1)] and its multiples are binary64, the last
    point is set to [stop], and every point is floored.  With one point the
    result is [[0]]. *)
Definition linspace_int (stop : Z) (num : nat) : list Z :=
  let div := (Z.of_nat num - 1)%Z in
  let step := Ieee.binary64 (inject_Z stop / inject_Z div) in
  map (fun i =>
         if (0 <? div)%Z then
           if (Z.of_nat i =? div)%Z then stop
           else Qfloor (Ieee.binary64 (inject_Z (Z.of_nat i) * step))
         else 0%Z)
      (seq 0 num).

(** [a[i]] for one integer index: a negative index counts from the end. *)
Definition getitem {A : Type} (a : list A) (i : Z) : result A :=
  let n := Z.of_nat (length a) in
  let j := (if i <? 0 then i + n else i)%Z in
  if ((j <? 0) || (n <=? j))%Z then Raise IndexError
  else match nth_error a (Z.to_nat j) with
       | Some v => Ok v
       | None => Raise IndexError
       end.

(** [a[idx]] for an integer index array. *)
Fixpoint take (a : list Q) (idx : list Z) : result (list Q) :=
  match idx with
  | [] => Ok []
  | i :: idx' =>
      (v <- getitem a i ;;
       vs <- take a idx' ;;
       Ok (v :: vs))%result
  end.

(** [np.stack(rows, axis=0)] of one-dimensional arrays: at least one array,
    all of one length. *)
Definition stack (rows : list (list Q)) : result (list (list Q)) :=
  match rows with
  | [] => Raise ValueError
  | r :: rows' =>
      if forallb (fun r' => (length r' =? length r)%nat) rows' then Ok rows
      else Raise ValueError
  end.

(** [np.diff(a)] of a one-dimensional array: [a[1:] - a[:-1]]. *)
Fixpoint diff (a : list Q) : list Q :=
  match a with
  | x :: (y :: _) as a' => (y - x) :: diff a'
  | _ => []
  end.

(** [np.all(d >= 0)]. *)
Definition all_ge0 (d : list Q) : bool := forallb (fun v => Qle_bool 0 v) d.

(** [np.array(a, dtype=np.float32)] of a list of Python floats. *)
Definition array32 (a : list Q) : list Q := map Ieee.float32 a.

(** [np.diff(a)] of a float32 array: every difference is rounded. *)
Definition diff32 (a : list Q) : list Q := map Ieee.float32 (diff a).

(** [np.ones(n, dtype=np.float32) * c] for a Python integer [n] and a Python
    float [c]: a negative size raises; the product is float32. *)
Definition ones32_times (n : Z) (c : Q) : result (list Q) :=
  if (n <? 0)%Z then Raise ValueError
  else Ok (repeat (Ieee.float32 (1 * Ieee.float32 c)) (Z.to_nat n)).

(** [z = np.zeros(n); z[1:] = src; z]: the slice has [n - 1] places (none
    when [n] is 0); [src] must have as many values, or one value, which is
    then broadcast. *)
Definition zeros_set_tail (n : nat) (src : list Q) : result (list Q) :=
  let places := (n - 1)%nat in
  let head := firstn n [0] in
  if (length src =? places)%nat then Ok (head ++ src)
  else match src with
       | [v] => Ok (head ++ repeat v places)
       | _ => Raise ValueError
       end.

(** [np.repeat(a[:, None], k, axis=1)]. *)
Definition repeat_cols (a : list Q) (k : nat) : list (list Q) :=
  map (fun v => repeat v k) a.

(** [np.stack([a, b], axis=2)] of two matrices, [a] with at least one row and
    [b] of shape [(rows_b, cols_b)]: the shapes must agree. *)
Definition stack2 (a b : list (list Q)) (cols_b : nat)
  : result (list (list (Q * Q))) :=
  if ((length a =? length b) && (length (hd [] a) =? cols_b))%nat then
    Ok (map (fun rs => combine (fst rs) (snd rs)) (combine a b))
  else Raise ValueError.

End Np.

(** ** Messages, external collaborators and the node's attributes *)

(** A serialized message is opaque to the node; an integer names one. *)
Definition payload := Z.

(** The bag writer is named by the stamp in its uri [manual_<stamp>]. *)
Definition handle := Z.

(** The model's input, without the batch axis: [seq_len] rows of
    [num_ranges] pairs (range, delta). *)
Definition tensor := list (list (Q * Q)).

Record LaserScan : Type := {
  ranges : list (option Q);
  stamp_sec : Z;
  stamp_nanosec : Z
}.

Record Joy : Type := { buttons : list Z }.

(** The six messages the synchronizer hands to [sensor_cb]. *)
Record frame : Type := {
  f_odom : payload;
  f_pf_odom : payload;
  f_scan : payload;
  f_pose : payload;
  f_imu_raw : payload;
  f_imu : payload
}.

Inductive topic : Set := Odom | PfOdom | Scan | Pose | ImuRaw | Imu.

Inductive site : Set := InLidar | InButton | InSensor | InDnn | InControl.

(** What the node asks of the outside, in program order. *)
Inductive event : Type :=
| WriterNew (h : handle)
| WriterOpened (h : handle)
| WriterWrite (h : handle) (tp : topic) (m : payload) (t : Z)
| WriterClose (h : handle)
| Invoke (inp : tensor)
| Publish (speed steering_angle : Q)
| LogError (at_ : site) (x : exn).

(** What the outside answers during one callback: the wall clock and the ROS
    clock, whether [SequentialWriter.open] or a [create_topic] raises,
    whether [SequentialWriter.close] raises, which of the six writes of a
    frame raises (if any), and what the interpreter does with an input. *)
Record env : Type := {
  time_now : Z;
  clock_ns : Z;
  open_raises : bool;
  close_raises : bool;
  write_raises : option nat;
  interpreter : tensor -> result (list Q)
}.

Record node : Type := {
  seq_len : nat;
  num_ranges : nat;
  buff_scans : list (list Q);
  buff_ts : list Q;
  is_joy : bool;
  prev_button : Z;
  bag_open : bool;
  writer : option handle;
  recording_active : bool;
  msg_counter : Z;
  recorded_speed : list Q;
  recorded_steer : list Q;
  trace : list event
}.

Definition set_buff_scans (v : list (list Q)) (s : node) : node :=
  {| seq_len := seq_len s; num_ranges := num_ranges s;
     buff_scans := v; buff_ts := buff_ts s;
     is_joy := is_joy s; prev_button := prev_button s;
     bag_open := bag_open s; writer := writer s;
     recording_active := recording_active s; msg_counter := msg_counter s;
     recorded_speed := recorded_speed s; recorded_steer := recorded_steer s;
     trace := trace s |}.

Definition set_buff_ts (v : list Q) (s : node) : node :=
  {| seq_len := seq_len s; num_ranges := num_ranges s;
     buff_scans := buff_scans s; buff_ts := v;
     is_joy := is_joy s; prev_button := prev_button s;
     bag_open := bag_open s; writer := writer s;
     recording_active := recording_active s; msg_counter := msg_counter s;
     recorded_speed := recorded_speed s; recorded_steer := recorded_steer s;
     trace := trace s |}.

Definition set_is_joy (v : bool) (s : node) : node :=
  {| seq_len := seq_len s; num_ranges := num_ranges s;
     buff_scans := buff_scans s; buff_ts := buff_ts s;
     is_joy := v; prev_button := prev_button s;
     bag_open := bag_open s; writer := writer s;
     recording_active := recording_active s; msg_counter := msg_counter s;
     recorded_speed := recorded_speed s; recorded_steer := recorded_steer s;
     trace := trace s |}.

Definition set_prev_button (v : Z) (s : node) : node :=
  {| seq_len := seq_len s; num_ranges := num_ranges s;
     buff_scans := buff_scans s; buff_ts := buff_ts s;
     is_joy := is_joy s; prev_button := v;
     bag_open := bag_open s; writer := writer s;
     recording_active := recording_active s; msg_counter := msg_counter s;
     recorded_speed := recorded_speed s; recorded_steer := recorded_steer s;
     trace := trace s |}.

Definition set_bag_open (v : bool) (s : node) : node :=
  {| seq_len := seq_len s; num_ranges := num_ranges s;
     buff_scans := buff_scans s; buff_ts := buff_ts s;
     is_joy := is_joy s; prev_button := prev_button s;
     bag_open := v; writer := writer s;
     recording_active := recording_active s; msg_counter := msg_counter s;
     recorded_speed := recorded_speed s; recorded_steer := recorded_steer s;
     trace := trace s |}.

Definition set_writer (v : option handle) (s : node) : node :=
  {| seq_len := seq_len s; num_ranges := num_ranges s;
     buff_scans := buff_scans s; buff_ts := buff_ts s;
     is_joy := is_joy s; prev_button := prev_button s;
     bag_open := bag_open s; writer := v;
     recording_active := recording_active s; msg_counter := msg_counter s;
     recorded_speed := recorded_speed s; recorded_steer := recorded_steer s;
     trace := trace s |}.

Definition set_recording_active (v : bool) (s : node) : node :=
  {| seq_len := seq_len s; num_ranges := num_ranges s;
     buff_scans := buff_scans s; buff_ts := buff_ts s;
     is_joy := is_joy s; prev_button := prev_button s;
     bag_open := bag_open s; writer := writer s;
     recording_active := v; msg_counter := msg_counter s;
     recorded_speed := recorded_speed s; recorded_steer := recorded_steer s;
     trace := trace s |}.

Definition set_msg_counter (v : Z) (s : node) : node :=
  {| seq_len := seq_len s; num_ranges := num_ranges s;
     buff_scans := buff_scans s; buff_ts := buff_ts s;
     is_joy := is_joy s; prev_button := prev_button s;
     bag_open := bag_open s; writer := writer s;
     recording_active := recording_active s; msg_counter := v;
     recorded_speed := recorded_speed s; recorded_steer := recorded_steer s;
     trace := trace s |}.

Definition set_recorded_speed (v : list Q) (s : node) : node :=
  {| seq_len := seq_len s; num_ranges := num_ranges s;
     buff_scans := buff_scans s; buff_ts := buff_ts s;
     is_joy := is_joy s; prev_button := prev_button s;
     bag_open := bag_open s; writer := writer s;
     recording_active := recording_active s; msg_counter := msg_counter s;
     recorded_speed := v; recorded_steer := recorded_steer s;
     trace := trace s |}.

Definition set_recorded_steer (v : list Q) (s : node) : node :=
  {| seq_len := seq_len s; num_ranges := num_ranges s;
     buff_scans := buff_scans s; buff_ts := buff_ts s;
     is_joy := is_joy s; prev_button := prev_button s;
     bag_open := bag_open s; writer := writer s;
     recording_active := recording_active s; msg_counter := msg_counter s;
     recorded_speed := recorded_speed s; recorded_steer := v;
     trace := trace s |}.

Definition set_trace (v : list event) (s : node) : node :=
  {| seq_len := seq_len s; num_ranges := num_ranges s;
     buff_scans := buff_scans s; buff_ts := buff_ts s;
     is_joy := is_joy s; prev_button := prev_button s;
     bag_open := bag_open s; writer := writer s;
     recording_active := recording_active s; msg_counter := msg_counter s;
     recorded_speed := recorded_speed s; recorded_steer := recorded_steer s;
     trace := v |}.

(** ** Method bodies: state and exceptions *)

Definition M (A : Type) : Type := node -> result A * node.

Definition ret {A : Type} (a : A) : M A := fun s => (Ok a, s).

Definition raise {A : Type} (x : exn) : M A := fun s => (Raise x, s).

Definition bind {A B : Type} (m : M A) (k : A -> M B) : M B :=
  fun s =>
    match m s with
    | (Ok a, s') => k a s'
    | (Raise x, s') => (Raise x, s')
    end.

(** [try: body except Exception as e: handler(e)]. *)
Definition try_except {A : Type} (body : M A) (handler : exn -> M A) : M A :=
  fun s =>
    match body s with
    | (Ok a, s') => (Ok a, s')
    | (Raise x, s') => handler x s'
    end.

Definition get {A : Type} (f : node -> A) : M A := fun s => (Ok (f s), s).

Definition modify (f : node -> node) : M unit := fun s => (Ok tt, f s).

Definition lift {A : Type} (r : result A) : M A := fun s => (r, s).

Definition emit (ev : event) : M unit :=
  modify (fun s => set_trace (trace s ++ [ev]) s).

Definition when (b : bool) (m : M unit) : M unit := if b then m else ret tt.

Definition exec {A : Type} (m : M A) (s : node) : node := snd (m s).

Declare Scope py_scope.
Delimit Scope py_scope with py.
Notation "x <- m ;; k" := (bind m (fun x => k))
  (at level 61, m at next level, right associativity) : py_scope.
Notation "m ;; k" := (bind m (fun _ => k))
  (at level 61, right associativity) : py_scope.
Open Scope py_scope.
Open Scope Q_scope.

(** ** [AutonomousNode] *)

(** [__init__] once the model is loaded: [seq_len] and [num_ranges] come from
    the model's input shape. *)
Definition init (seq_len num_ranges : nat) : node :=
  {| seq_len := seq_len; num_ranges := num_ranges;
     buff_scans := []; buff_ts := [];
     is_joy := false; prev_button := 0%Z;
     bag_open := false; writer := None;
     recording_active := false; msg_counter := 0%Z;
     recorded_speed := []; recorded_steer := [];
     trace := [] |}.

(** [deque(maxlen=maxlen).append(x)]: append on the right, then drop the
    leftmost entry when the bound is exceeded. *)
Definition deque_append {A : Type} (maxlen : nat) (d : list A) (x : A) : list A :=
  let d' := d ++ [x] in
  if (maxlen <? length d')%nat then tl d' else d'.

(** The block of [lidar_callback] under [buffer_lock]. *)
Definition push (scan : list Q) (t : Q) : M unit :=
  sl <- get seq_len ;;
  modify (fun s => set_buff_scans (deque_append sl (buff_scans s) scan) s) ;;
  modify (fun s => set_buff_ts (deque_append sl (buff_ts s) t) s).

(** [msg.header.stamp.sec + msg.header.stamp.nanosec * 1e-9], in Python
    floats. *)
Definition stamp_seconds (msg : LaserScan) : Q :=
  Ieee.binary64
    (inject_Z (stamp_sec msg)
     + Ieee.binary64 (inject_Z (stamp_nanosec msg) * Ieee.binary64 1e-9)).

Definition lidar_callback (msg : LaserScan) : M unit :=
  try_except
    (let cleaned := Np.nan_to_num (ranges msg) in
     nr <- get num_ranges ;;
     let idx := Np.linspace_int (Z.of_nat (length cleaned) - 1) nr in
     picked <- lift (Np.take cleaned idx) ;;
     let scan := Np.array32 picked in
     push scan (stamp_seconds msg))
    (fun x => emit (LogError InLidar x)).

Definition _open_bag (e : env) : M unit :=
  let stamp := time_now e in
  emit (WriterNew stamp) ;;
  modify (set_writer (Some stamp)) ;;
  (if open_raises e then raise RuntimeError else emit (WriterOpened stamp)) ;;
  modify (set_bag_open true) ;;
  modify (set_msg_counter 0%Z) ;;
  modify (set_recording_active true).

Definition _close_bag (e : env) : M unit :=
  w <- get writer ;;
  match w with
  | Some h => if close_raises e then raise RuntimeError else emit (WriterClose h)
  | None => ret tt
  end ;;
  modify (set_bag_open false) ;;
  modify (set_recording_active false) ;;
  modify (set_writer None).

Definition button_callback (e : env) (msg : Joy) : M unit :=
  try_except
    (curr <- lift (Np.getitem (buttons msg) 0) ;;
     prev <- get prev_button ;;
     when ((curr =? 1)%Z && negb (curr =? prev)%Z)
       (joy <- get is_joy ;;
        let new_val := negb joy in
        modify (set_is_joy new_val) ;;
        if new_val then
          bo <- get bag_open ;;
          if negb bo then _open_bag e
          else modify (set_recording_active true)
        else _close_bag e) ;;
     modify (set_prev_button curr))
    (fun x => emit (LogError InButton x)).

(** The [k]-th [self.writer.write(topic, serialize_message(m), t)] of
    [sensor_cb]. *)
Definition writer_write (e : env) (k : nat) (tp : topic) (m : payload) (t : Z)
  : M unit :=
  w <- get writer ;;
  match w with
  | None => raise AttributeError
  | Some h =>
      if match write_raises e with Some j => (j =? k)%nat | None => false end
      then raise RuntimeError
      else emit (WriterWrite h tp m t)
  end.

(** The [try] block of [sensor_cb]. *)
Definition sensor_cb_body (e : env) (f : frame) : M unit :=
  let t := clock_ns e in
  writer_write e 0 Odom (f_odom f) t ;;
  writer_write e 1 PfOdom (f_pf_odom f) t ;;
  writer_write e 2 Scan (f_scan f) t ;;
  writer_write e 3 Pose (f_pose f) t ;;
  writer_write e 4 ImuRaw (f_imu_raw f) t ;;
  writer_write e 5 Imu (f_imu f) t ;;
  modify (fun s => set_msg_counter (msg_counter s + 1)%Z s).

Definition sensor_cb (e : env) (f : frame) : M unit :=
  ra <- get recording_active ;;
  if negb ra then ret tt
  else try_except (sensor_cb_body e f) (fun x => emit (LogError InSensor x)).

(** Lines 266-278 of [dnn_output]: the per-timestep delta array. *)
Definition dt_full (seq_len : nat) (ts_list : list Q) : result (list Q) :=
  (let ts := Np.array32 ts_list in
   diffs <- (if negb (Np.all_ge0 (Np.diff32 ts))
             then Np.ones32_times (Z.of_nat seq_len - 1) (Ieee.binary64 0.025)
             else Ok (Np.diff32 ts)) ;;
   Np.zeros_set_tail seq_len diffs)%result.

(** Lines 257-287 of [dnn_output]: from the two copied lists to the model's
    input.  The buffers hold float32 scans without NaN or infinity, so the
    [nan_to_num] of line 263 has nothing to replace and the [astype] of line
    287 nothing to round. *)
Definition build_input (seq_len num_ranges : nat)
    (scans_list : list (list Q)) (ts_list : list Q) : result tensor :=
  (scans <- Np.stack scans_list ;;
   dt <- dt_full seq_len ts_list ;;
   let dt_tiled := Np.repeat_cols dt num_ranges in
   Np.stack2 scans dt_tiled num_ranges)%result.

(** [np.min(inp)] and [np.max(inp)] in the debug message of line 291 raise on
    an array without elements. *)
Definition min_max_defined (inp : tensor) : result unit :=
  if forallb (fun row => (length row =? 0)%nat) inp then Raise ValueError
  else Ok tt.

(** The block of [dnn_output] under [buffer_lock]: the two copies, or nothing
    when fewer than [seq_len] scans are buffered. *)
Definition snapshot (s : node) : option (list (list Q) * list Q) :=
  if (length (buff_scans s) <? seq_len s)%nat then None
  else Some (buff_scans s, buff_ts s).

(** The [try] block of [dnn_output]. *)
Definition dnn_body (e : env) : M (Q * Q) :=
  snap <- get snapshot ;;
  match snap with
  | None => ret (0.0, 0.0)
  | Some (scans_list, ts_list) =>
      sl <- get seq_len ;;
      nr <- get num_ranges ;;
      inp <- lift (build_input sl nr scans_list ts_list) ;;
      lift (min_max_defined inp) ;;
      emit (Invoke inp) ;;
      out <- lift (interpreter e inp) ;;
      out0 <- lift (Np.getitem out 0) ;;
      out1 <- lift (Np.getitem out 1) ;;
      ret (out0, out1)
  end.

Definition dnn_output (e : env) : M (Q * Q) :=
  try_except (dnn_body e)
    (fun x => emit (LogError InDnn x) ;; ret (0.0, 0.0)).

Definition control_loop (e : env) : M unit :=
  try_except
    (joy <- get is_joy ;;
     bo <- get bag_open ;;
     (if joy && negb bo then _open_bag e
      else if negb joy && bo then _close_bag e
      else ret tt) ;;
     when (negb joy)
       (out <- dnn_output e ;;
        let steer := fst out in
        let speed := snd out in
        speed <- lift (linear_map speed 0.0 1.0 (-0.5) 7.0) ;;
        steer <- lift (linear_map steer (-1.0) 1.0 (-0.34) 0.34) ;;
        let drive_speed := speed * 1.2 in
        let drive_steering_angle := steer in
        emit (Publish drive_speed drive_steering_angle) ;;
        modify (fun s => set_recorded_speed (recorded_speed s ++ [drive_speed]) s) ;;
        modify (fun s =>
                  set_recorded_steer (recorded_steer s ++ [drive_steering_angle]) s)))
    (fun x => emit (LogError InControl x)).

Definition destroy_node (e : env) : M unit := _close_bag e.

(** ** Vocabulary of the statements *)

(** The events a computation appends to the trace of [s]. *)
Definition emitted {A : Type} (m : M A) (s : node) : list event :=
  skipn (length (trace s)) (trace (exec m s)).

(** The state after the autonomous branch of [control_loop] has published. *)
Definition published (speed steer : Q) (s : node) : node :=
  set_recorded_steer (recorded_steer s ++ [steer])
    (set_recorded_speed (recorded_speed s ++ [speed])
       (set_trace (trace s ++ [Publish speed steer]) s)).

(** An outside on which nothing raises; the model answers [out]. *)
Definition quiet (now : Z) (out : list Q) : env :=
  {| time_now := now; clock_ns := (now * 1000000000)%Z;
     open_raises := false; close_raises := false; write_raises := None;
     interpreter := fun _ => Ok out |}.

(** An outside whose interpreter raises on every call. *)
Definition broken_model (now : Z) : env :=
  {| time_now := now; clock_ns := (now * 1000000000)%Z;
     open_raises := false; close_raises := false; write_raises := None;
     interpreter := fun _ => Raise RuntimeError |}.

(** A node for a model of two timesteps and three range bins, after three
    scans of five readings (one of them NaN) at 1.5 s, 2.5 s and 3.5 s. *)
Definition scan_at (sec : Z) : LaserScan :=
  {| ranges := [Some 1; None; Some 3; Some 4; Some 5];
     stamp_sec := sec; stamp_nanosec := 500000000 |}.

Definition warm_node : node :=
  exec (lidar_callback (scan_at 3))
    (exec (lidar_callback (scan_at 2))
       (exec (lidar_callback (scan_at 1)) (init 2 3))).

(** Some successive difference of the timestamps is negative. *)
Definition some_delta_negative (ts : list Q) : Prop :=
  Exists (fun d => d < 0) (Np.diff ts).

(** Channel 1 of a model input: the delta of every cell. *)
Definition delta_channel (inp : tensor) : list (list Q) := map (map snd) inp.

(** Channel 0 of a model input: the range of every cell. *)
Definition range_channel (inp : tensor) : list (list Q) := map (map fst) inp.

(** The node after the scans [xs], each with its timestamp, have been pushed
    in this order. *)
Definition pushes (xs : list (list Q * Q)) (s : node) : node :=
  fold_left (fun s' x => exec (push (fst x) (snd x)) s') xs s.

(** The last [n] entries of [l], in the order of [l]. *)
Definition most_recent {A : Type} (n : nat) (l : list A) : list A :=
  skipn (length l - n) l.

(** The recorder is closed: no bag, no writer, not recording. *)
Definition Closed (s : node) : Prop :=
  bag_open s = false /\ writer s = None /\ recording_active s = false.

(** The attributes [_close_bag] leaves behind. *)
Definition closed_state (s : node) : node :=
  set_writer None (set_recording_active false (set_bag_open false s)).

(** [_open_bag] after [self.writer = SequentialWriter()]. *)
Definition opening (e : env) (s : node) : node :=
  set_writer (Some (time_now e))
    (set_trace (trace s ++ [WriterNew (time_now e)]) s).

(** [_open_bag] at its end. *)
Definition opened (e : env) (s : node) : node :=
  set_recording_active true
    (set_msg_counter 0%Z
       (set_bag_open true
          (set_trace (trace (opening e s) ++ [WriterOpened (time_now e)])
             (opening e s)))).

(** The node after a frame whose six writes succeed. *)
Definition frame_written (e : env) (f : frame) (h : handle) (s : node) : node :=
  set_msg_counter (msg_counter s + 1)%Z
    (set_trace
       (trace s ++ [WriterWrite h Odom (f_odom f) (clock_ns e);
                    WriterWrite h PfOdom (f_pf_odom f) (clock_ns e);
                    WriterWrite h Scan (f_scan f) (clock_ns e);
                    WriterWrite h Pose (f_pose f) (clock_ns e);
                    WriterWrite h ImuRaw (f_imu_raw f) (clock_ns e);
                    WriterWrite h Imu (f_imu f) (clock_ns e)]) s).

(** The computation performs [_open_bag]: it constructs a writer. *)
Definition opens_bag {A : Type} (m : M A) (s : node) : Prop :=
  exists h, In (WriterNew h) (emitted m s).

(** A Joy message with the given buttons, and the mode after each message of
    a sequence, with the positions (from [k]) at which the mode changed. *)
Definition joy_msg (bs : list Z) : Joy := {| buttons := bs |}.

Fixpoint flip_positions (k : nat) (steps : list (env * Joy)) (s : node)
  : list nat :=
  match steps with
  | [] => []
  | (e, msg) :: rest =>
      let s' := exec (button_callback e msg) s in
      (if Bool.eqb (is_joy s') (is_joy s) then [] else [k])
      ++ flip_positions (S k) rest s'
  end.

(** The recording invariant, with the link between [bag_open] and [writer]
    that makes it inductive. *)
Definition recording_inv (s : node) : Prop :=
  (recording_active s = true -> bag_open s = true)
  /\ (bag_open s = true -> writer s <> None).

(** The states the node can be in: [__init__], then any callback, with any
    message and any answer of the outside, or a change of the [is_joy]
    parameter from outside the node. *)
Inductive reachable : node -> Prop :=
| reach_init (sl nr : nat) : reachable (init sl nr)
| reach_lidar (msg : LaserScan) (s : node) :
    reachable s -> reachable (exec (lidar_callback msg) s)
| reach_button (e : env) (msg : Joy) (s : node) :
    reachable s -> reachable (exec (button_callback e msg) s)
| reach_sensor (e : env) (f : frame) (s : node) :
    reachable s -> reachable (exec (sensor_cb e f) s)
| reach_control (e : env) (s : node) :
    reachable s -> reachable (exec (control_loop e) s)
| reach_param (v : bool) (s : node) :
    reachable s -> reachable (set_is_joy v s)
| reach_destroy (e : env) (s : node) :
    reachable s -> reachable (exec (destroy_node e) s).

(** The events of an inference: the call of the interpreter and the error
    logged by [dnn_output]. *)
Definition inference_event (ev : event) : Prop :=
  match ev with
  | Invoke _ | LogError InDnn _ => True
  | _ => False
  end.

(** The event is the construction of a bag writer. *)
Definition is_writer_new (ev : event) : Prop :=
  match ev with
  | WriterNew _ => True
  | _ => False
  end.

(** A frame whose six payloads are numbered from [k]. *)
Definition frame_from (k : Z) : frame :=
  {| f_odom := k; f_pf_odom := (k + 1)%Z; f_scan := (k + 2)%Z;
     f_pose := (k + 3)%Z; f_imu_raw := (k + 4)%Z; f_imu := (k + 5)%Z |}.

(** The float32 value of the fallback delta, [np.ones(..) * 0.025]. *)
Definition fallback_delta : Q :=
  Ieee.float32 (1 * Ieee.float32 (Ieee.binary64 0.025)).

(** Scans stamped with seconds since 1970, as a ROS clock gives them. *)
Definition epoch_scan (nanosec : Z) : LaserScan :=
  {| ranges := [Some 1; None; Some 3; Some 4; Some 5];
     stamp_sec := 1700000000; stamp_nanosec := nanosec |}.

(** A node for three timesteps after scans at +0 s, +0.3 s and +0.1 s. *)
Definition epoch_node : node :=
  exec (lidar_callback (epoch_scan 100000000))
    (exec (lidar_callback (epoch_scan 300000000))
       (exec (lidar_callback (epoch_scan 0)) (init 3 3))).

(** An outside on which [SequentialWriter.open] raises. *)
Definition cannot_open (now : Z) : env :=
  {| time_now := now; clock_ns := (now * 1000000000)%Z;
     open_raises := true; close_raises := false; write_raises := None;
     interpreter := fun _ => Ok [] |}.

(** The positions (from [k]) of the readings that are 1 after a reading
    that is not, [prev] being the reading before the first. *)
Fixpoint rising_edges (k : nat) (prev : Z) (bs : list Z) : list nat :=
  match bs with
  | [] => []
  | b :: rest =>
      (if ((b =? 1)%Z && negb (b =? prev)%Z)%bool then [k] else [])
      ++ rising_edges (S k) b rest
  end.

(** Button 0 of a message that has one. *)
Definition first_button (msg : Joy) : Z := hd 0%Z (buttons msg).

(** Neither opening nor closing the bag raises. *)
Definition fault_free (e : env) : Prop :=
  open_raises e = false /\ close_raises e = false.

(** The six writes of one frame, in the order of [sensor_cb]. *)
Definition frame_writes (e : env) (f : frame) (h : handle) : list event :=
  [WriterWrite h Odom (f_odom f) (clock_ns e);
   WriterWrite h PfOdom (f_pf_odom f) (clock_ns e);
   WriterWrite h Scan (f_scan f) (clock_ns e);
   WriterWrite h Pose (f_pose f) (clock_ns e);
   WriterWrite h ImuRaw (f_imu_raw f) (clock_ns e);
   WriterWrite h Imu (f_imu f) (clock_ns e)].

(** The event is a command or a call of the interpreter. *)
Definition drives (ev : event) : Prop :=
  match ev with
  | Publish _ _ | Invoke _ => True
  | _ => False
  end.

(** An outside on which the write number [k] of a frame raises. *)
Definition write_fails (k : nat) (now : Z) : env :=
  {| time_now := now; clock_ns := (now * 1000000000)%Z;
     open_raises := false; close_raises := false; write_raises := Some k;
     interpreter := fun _ => Ok [] |}.

(** The two deques go together, are bounded by [seq_len], and every
    buffered scan has [num_ranges] readings. *)
Definition buffers_inv (s : node) : Prop :=
  length (buff_scans s) = length (buff_ts s)
  /\ (length (buff_scans s) <= seq_len s)%nat
  /\ Forall (fun scan => length scan = num_ranges s) (buff_scans s).

(** The attributes the inference reads. *)
Definition buffers (s : node) : nat * nat * list (list Q) * list Q :=
  (seq_len s, num_ranges s, buff_scans s, buff_ts s).

(** * Properties *)

Ltac unfold_monad :=
  unfold try_except, bind, get, modify, lift, ret, raise, emit, when, exec in *.

(** ** Denormalisation *)

Lemma truediv_ok (a b : Q) : ~ b == 0 -> truediv a b = Ok (a / b).
Proof.
  intros Hb. unfold truediv.
  destruct (Qeq_bool b 0) eqn:E; [|reflexivity].
  apply Qeq_bool_iff in E. contradiction.
Qed.

Lemma linear_map_degenerate (x x_min x_max y_min y_max : Q) :
  x_min == x_max ->
  linear_map x x_min x_max y_min y_max = Ok ((y_max + y_min) / 2).
Proof.
  intros H. unfold linear_map.
  assert (E : Qeq_bool x_max x_min = true)
    by (apply Qeq_bool_iff; symmetry; exact H).
  rewrite E. apply truediv_ok. discriminate.
Qed.

Lemma linear_map_affine (x x_min x_max y_min y_max : Q) :
  ~ x_min == x_max ->
  linear_map x x_min x_max y_min y_max
  = Ok ((x - x_min) / (x_max - x_min) * (y_max - y_min) + y_min).
Proof.
  intros H. unfold linear_map.
  destruct (Qeq_bool x_max x_min) eqn:E.
  - apply Qeq_bool_iff in E. exfalso. apply H. symmetry. exact E.
  - rewrite truediv_ok; [reflexivity|].
    intros D. apply H. symmetry.
    apply Qplus_inj_r with (z := - x_min).
    rewrite Qplus_opp_r. exact D.
Qed.

Lemma linear_map_total (x x_min x_max y_min y_max : Q) :
  exists y, linear_map x x_min x_max y_min y_max = Ok y.
Proof.
  destruct (Qeq_dec x_min x_max) as [H|H].
  - eexists. apply linear_map_degenerate. exact H.
  - eexists. apply linear_map_affine. exact H.
Qed.

(** C3. On a degenerate domain [linear_map] returns the midpoint of the
    output range, whatever [x]; otherwise it is the affine map
    [(x - x_min)/(x_max - x_min)*(y_max - y_min) + y_min]; it never raises
    [ZeroDivisionError]; and [linear_map(0.5, 0, 1, -0.34, 0.34)] is 0. *)
Theorem linear_map_spec (x x_min x_max y_min y_max : Q) :
  (x_min == x_max ->
   linear_map x x_min x_max y_min y_max = Ok ((y_max + y_min) / 2)
   /\ (y_max + y_min) / 2 == (y_min + y_max) / 2)
  /\ (~ x_min == x_max ->
      linear_map x x_min x_max y_min y_max
      = Ok ((x - x_min) / (x_max - x_min) * (y_max - y_min) + y_min))
  /\ (exists y, linear_map x x_min x_max y_min y_max = Ok y)
  /\ (exists y, linear_map 0.5 0 1 (-0.34) 0.34 = Ok y /\ y == 0).
Proof.
  repeat split.
  - apply linear_map_degenerate. assumption.
  - rewrite (Qplus_comm y_max y_min). reflexivity.
  - apply linear_map_affine.
  - apply linear_map_total.
  - eexists. split; [reflexivity|reflexivity].
Qed.

Lemma linear_map_spec_witness :
  linear_map 3 1 1 0 4 = Ok ((4 + 0) / 2)
  /\ linear_map 0.5 (-1) 1 (-0.34) 0.34
     = Ok ((0.5 - (-1)) / (1 - (-1)) * (0.34 - (-0.34)) + (-0.34)).
Proof.
  split.
  - apply (proj1 (linear_map_spec 3 1 1 0 4)). reflexivity.
  - apply (proj1 (proj2 (linear_map_spec 0.5 (-1) 1 (-0.34) 0.34))).
    discriminate.
Defined.

Lemma linear_map_steer (raw : Q) :
  linear_map raw (-1.0) 1.0 (-0.34) 0.34
  = Ok ((raw - (-1.0)) / (1.0 - (-1.0)) * (0.34 - (-0.34)) + (-0.34)).
Proof. apply linear_map_affine. discriminate. Qed.

Lemma linear_map_speed (raw : Q) :
  linear_map raw 0.0 1.0 (-0.5) 7.0
  = Ok ((raw - 0.0) / (1.0 - 0.0) * (7.0 - (-0.5)) + (-0.5)).
Proof. apply linear_map_affine. discriminate. Qed.

Lemma denormalised_steer (raw : Q) :
  (raw - (-1.0)) / (1.0 - (-1.0)) * (0.34 - (-0.34)) + (-0.34) == 0.34 * raw.
Proof. field. Qed.

Lemma denormalised_speed (raw : Q) :
  (raw - 0.0) / (1.0 - 0.0) * (7.0 - (-0.5)) + (-0.5) == 7.5 * raw - 0.5.
Proof. field. Qed.

(** On binary64 the two numeric examples come out the same: the call
    [linear_map(0.5, 0, 1, -0.34, 0.34)] is exactly 0, and the speed of the
    neutral output, [linear_map(0.0, 0.0, 1.0, -0.5, 7.0) * 1.2], is the
    float nearest to -0.6. *)
Example binary64_midpoint_of_steering :
  Binary64.linear_map 0.5%float 0%float 1%float (-0.34)%float 0.34%float
  = Ok 0%float.
Proof. vm_compute. reflexivity. Qed.

Example binary64_neutral_speed :
  rbind (Binary64.linear_map 0%float 0%float 1%float (-0.5)%float 7%float)
    (fun speed => Ok (PrimFloat.mul speed 1.2%float))
  = Ok (-0.6)%float.
Proof. vm_compute. reflexivity. Qed.

(** ** The inference adapter and the control loop *)

Lemma emitted_nothing {A : Type} (m : M A) (s : node) :
  exec m s = s -> emitted m s = [].
Proof.
  intros H. unfold emitted. rewrite H. apply skipn_all.
Qed.

Lemma dnn_output_under_run (e : env) (s : node) :
  (length (buff_scans s) < seq_len s)%nat ->
  dnn_output e s = (Ok (0.0, 0.0), s).
Proof.
  intros H. apply Nat.ltb_lt in H.
  unfold dnn_output, dnn_body, snapshot. unfold_monad.
  rewrite H. reflexivity.
Qed.

Lemma dnn_output_catches (e : env) (s s' : node) (x : exn) :
  dnn_body e s = (Raise x, s') ->
  dnn_output e s
  = (Ok (0.0, 0.0), set_trace (trace s' ++ [LogError InDnn x]) s').
Proof.
  intros H. unfold dnn_output. unfold_monad. rewrite H. reflexivity.
Qed.

Lemma dnn_output_returns (e : env) (s : node) :
  exists r s', dnn_output e s = (Ok r, s').
Proof.
  unfold dnn_output. unfold_monad.
  destruct (dnn_body e s) as [[r|x] s']; simpl; eauto.
Qed.

Lemma try_except_returns (body : M unit) (handler : exn -> M unit) (s : node) :
  (forall x s1, exists s2, handler x s1 = (Ok tt, s2)) ->
  exists s', try_except body handler s = (Ok tt, s').
Proof.
  intros Hh. unfold try_except.
  destruct (body s) as [[[]|x] s1]; [eauto|apply Hh].
Qed.

Lemma emit_returns (ev : event) (s : node) :
  exists s', emit ev s = (Ok tt, s').
Proof. unfold emit, modify. eauto. Qed.

Lemma control_loop_returns (e : env) (s : node) :
  exists s', control_loop e s = (Ok tt, s').
Proof.
  unfold control_loop. apply try_except_returns.
  intros x s1. apply emit_returns.
Qed.

Lemma control_loop_autonomous (e : env) (s s1 s2 : node) (raw_steer raw_speed : Q) :
  is_joy s = false ->
  (if bag_open s then _close_bag e s = (Ok tt, s1) else s1 = s) ->
  dnn_output e s1 = (Ok (raw_steer, raw_speed), s2) ->
  control_loop e s
  = (Ok tt,
     published
       (((raw_speed - 0.0) / (1.0 - 0.0) * (7.0 - (-0.5)) + (-0.5)) * 1.2)
       ((raw_steer - (-1.0)) / (1.0 - (-1.0)) * (0.34 - (-0.34)) + (-0.34))
       s2).
Proof.
  intros Hjoy Hclose Hdnn.
  unfold control_loop.
  unfold try_except at 1. unfold bind at 1. unfold get at 1.
  unfold bind at 1. unfold get at 1. rewrite Hjoy.
  unfold bind at 1.
  assert (Hpre : (if false && negb (bag_open s) then _open_bag e
                  else if negb false && bag_open s then _close_bag e
                  else ret tt) s = (Ok tt, s1)).
  { destruct (bag_open s); simpl; [exact Hclose|subst; reflexivity]. }
  rewrite Hpre.
  unfold when, negb. unfold bind at 1. rewrite Hdnn.
  cbv beta iota. unfold fst, snd.
  unfold bind at 1. unfold lift at 1. rewrite linear_map_speed.
  unfold bind at 1. unfold lift at 1. rewrite linear_map_steer.
  reflexivity.
Qed.

(** C4. With fewer than [seq_len] scans buffered, [dnn_output] returns
    [(0.0, 0.0)] as an ordinary result and leaves the node as it was: the
    interpreter is not called and no error is logged. *)
Theorem dnn_output_warm_up (e : env) (s : node) :
  (length (buff_scans s) < seq_len s)%nat ->
  dnn_output e s = (Ok (0.0, 0.0), s)
  /\ emitted (dnn_output e) s = []
  /\ (forall inp, ~ In (Invoke inp) (emitted (dnn_output e) s))
  /\ (forall x, ~ In (LogError InDnn x) (emitted (dnn_output e) s)).
Proof.
  intros H.
  pose proof (dnn_output_under_run e s H) as E.
  assert (N : emitted (dnn_output e) s = []).
  { apply emitted_nothing. unfold exec. rewrite E. reflexivity. }
  repeat split; try assumption; rewrite N; intros ? [].
Qed.

Lemma dnn_output_warm_up_witness :
  dnn_output (broken_model 100) (init 2 3) = (Ok (0.0, 0.0), init 2 3)
  /\ emitted (dnn_output (broken_model 100)) (init 2 3) = [].
Proof.
  destruct (dnn_output_warm_up (broken_model 100) (init 2 3)) as (H1 & H2 & _).
  - simpl. lia.
  - split; assumption.
Defined.

(** C5. [dnn_output] always returns a pair: whatever exception its [try]
    block raises (stacking, delta construction, the interpreter, reading the
    output) is logged and turned into [(0.0, 0.0)]; and [control_loop], which
    calls it, always returns. *)
Theorem dnn_output_never_raises (e : env) (s : node) :
  (exists r s', dnn_output e s = (Ok r, s'))
  /\ (forall x s',
        dnn_body e s = (Raise x, s') ->
        dnn_output e s
        = (Ok (0.0, 0.0), set_trace (trace s' ++ [LogError InDnn x]) s'))
  /\ (exists s', control_loop e s = (Ok tt, s')).
Proof.
  split; [apply dnn_output_returns|].
  split; [intros x s'; apply dnn_output_catches|].
  apply control_loop_returns.
Qed.

Lemma dnn_output_never_raises_witness :
  dnn_body (broken_model 100) warm_node
  = (Raise RuntimeError, exec (dnn_body (broken_model 100)) warm_node)
  /\ dnn_output (broken_model 100) warm_node
     = (Ok (0.0, 0.0),
        set_trace
          (trace (exec (dnn_body (broken_model 100)) warm_node)
           ++ [LogError InDnn RuntimeError])
          (exec (dnn_body (broken_model 100)) warm_node)).
Proof.
  split; [vm_compute; reflexivity|].
  apply (proj1 (proj2 (dnn_output_never_raises (broken_model 100) warm_node))).
  vm_compute. reflexivity.
Defined.

(** Each stage of the [try] block can be the one that raises. *)
Example stacking_raises :
  fst (dnn_body (quiet 0 [0; 0])
         (set_buff_scans [[1; 2; 3]; [1; 2]] warm_node))
  = Raise ValueError.
Proof. vm_compute. reflexivity. Qed.

Example delta_construction_raises :
  fst (dnn_body (quiet 0 [0; 0]) (set_buff_ts [1; 2; 3; 4] warm_node))
  = Raise ValueError.
Proof. vm_compute. reflexivity. Qed.

Example reading_output_raises :
  fst (dnn_body (quiet 0 [0.5]) warm_node) = Raise IndexError.
Proof. vm_compute. reflexivity. Qed.

(** C8. In autonomous mode, once the bag (if open) is closed, the command
    the loop publishes has steering [linear_map(raw_steer, -1, 1, -0.34, 0.34)]
    and speed [linear_map(raw_speed, 0, 1, -0.5, 7.0) * 1.2], where
    [(raw_steer, raw_speed)] is what [dnn_output] returned. *)
Theorem control_loop_denormalises
    (e : env) (s s1 s2 : node) (raw_steer raw_speed : Q) :
  is_joy s = false ->
  (if bag_open s then _close_bag e s = (Ok tt, s1) else s1 = s) ->
  dnn_output e s1 = (Ok (raw_steer, raw_speed), s2) ->
  exists steer speed,
    linear_map raw_steer (-1.0) 1.0 (-0.34) 0.34 = Ok steer
    /\ linear_map raw_speed 0.0 1.0 (-0.5) 7.0 = Ok speed
    /\ steer == 0.34 * raw_steer
    /\ speed == 7.5 * raw_speed - 0.5
    /\ control_loop e s = (Ok tt, published (speed * 1.2) steer s2)
    /\ trace (exec (control_loop e) s)
       = trace s2 ++ [Publish (speed * 1.2) steer].
Proof.
  intros Hjoy Hclose Hdnn.
  pose proof (control_loop_autonomous e s s1 s2 _ _ Hjoy Hclose Hdnn) as H.
  do 2 eexists.
  split; [apply linear_map_steer|].
  split; [apply linear_map_speed|].
  split; [apply denormalised_steer|].
  split; [apply denormalised_speed|].
  split; [exact H|].
  unfold exec. rewrite H. reflexivity.
Qed.

Lemma control_loop_denormalises_witness :
  exists steer speed,
    linear_map 0.5 (-1.0) 1.0 (-0.34) 0.34 = Ok steer
    /\ linear_map 0.25 0.0 1.0 (-0.5) 7.0 = Ok speed
    /\ steer == 0.34 * 0.5
    /\ speed == 7.5 * 0.25 - 0.5
    /\ control_loop (quiet 100 [0.5; 0.25]) warm_node
       = (Ok tt, published (speed * 1.2) steer
                   (exec (dnn_output (quiet 100 [0.5; 0.25])) warm_node))
    /\ trace (exec (control_loop (quiet 100 [0.5; 0.25])) warm_node)
       = trace (exec (dnn_output (quiet 100 [0.5; 0.25])) warm_node)
         ++ [Publish (speed * 1.2) steer].
Proof.
  apply (control_loop_denormalises (quiet 100 [0.5; 0.25]) warm_node warm_node);
    vm_compute; reflexivity.
Defined.

(** C9. When [dnn_output] returns the neutral pair [(0.0, 0.0)], the
    autonomous branch still publishes: the speed is
    [linear_map(0.0, 0.0, 1.0, -0.5, 7.0) * 1.2], which is -0.6 and not 0,
    and the steering is 0. *)
Theorem neutral_output_is_published (e : env) (s s1 s2 : node) :
  is_joy s = false ->
  (if bag_open s then _close_bag e s = (Ok tt, s1) else s1 = s) ->
  dnn_output e s1 = (Ok (0.0, 0.0), s2) ->
  exists speed steer,
    linear_map 0.0 0.0 1.0 (-0.5) 7.0 = Ok speed
    /\ linear_map 0.0 (-1.0) 1.0 (-0.34) 0.34 = Ok steer
    /\ trace (exec (control_loop e) s)
       = trace s2 ++ [Publish (speed * 1.2) steer]
    /\ speed * 1.2 == -0.6
    /\ steer == 0
    /\ ~ speed * 1.2 == 0.
Proof.
  intros Hjoy Hclose Hdnn.
  pose proof (control_loop_autonomous e s s1 s2 _ _ Hjoy Hclose Hdnn) as H.
  do 2 eexists.
  split; [apply linear_map_speed|].
  split; [apply linear_map_steer|].
  split; [unfold exec; rewrite H; reflexivity|].
  split; [reflexivity|].
  split; [reflexivity|discriminate].
Qed.

Lemma neutral_output_is_published_witness :
  exists speed steer,
    linear_map 0.0 0.0 1.0 (-0.5) 7.0 = Ok speed
    /\ linear_map 0.0 (-1.0) 1.0 (-0.34) 0.34 = Ok steer
    /\ trace (exec (control_loop (quiet 100 [0.5; 0.25])) (init 2 3))
       = trace (init 2 3) ++ [Publish (speed * 1.2) steer]
    /\ speed * 1.2 == -0.6
    /\ steer == 0
    /\ ~ speed * 1.2 == 0.
Proof.
  apply (neutral_output_is_published
           (quiet 100 [0.5; 0.25]) (init 2 3) (init 2 3) (init 2 3));
    vm_compute; reflexivity.
Defined.

(** The same after an inference exception: the error is logged, then the
    command goes out. *)
Example neutral_after_exception :
  exists inp speed steer,
    emitted (control_loop (broken_model 100)) warm_node
    = [Invoke inp; LogError InDnn RuntimeError; Publish speed steer]
    /\ speed == -0.6 /\ steer == 0.
Proof.
  do 3 eexists. split; [vm_compute; reflexivity|split; vm_compute; reflexivity].
Qed.

(** ** The delta channel *)

Lemma diff_length (ts : list Q) : length (Np.diff ts) = (length ts - 1)%nat.
Proof.
  induction ts as [|x ts IH]; [reflexivity|].
  destruct ts as [|y ts]; [reflexivity|].
  change (Np.diff (x :: y :: ts)) with ((y - x) :: Np.diff (y :: ts)).
  simpl length in *. rewrite IH. lia.
Qed.

Lemma all_ge0_false (d : list Q) :
  Np.all_ge0 d = false <-> Exists (fun v => v < 0) d.
Proof.
  unfold Np.all_ge0. induction d as [|v d IH]; simpl.
  - split; [discriminate|]. intros H. inversion H.
  - rewrite andb_false_iff, IH. split.
    + intros [H|H]; [left|right; exact H].
      apply Qnot_le_lt. intros L. apply Qle_bool_iff in L. congruence.
    + intros H. inversion H as [? ? L|? ? L]; subst; [left|right; exact L].
      destruct (Qle_bool 0 v) eqn:E; [|reflexivity].
      apply Qle_bool_iff in E. exfalso. exact (Qlt_not_le _ _ L E).
Qed.

Lemma diff32_length (ts : list Q) :
  length (Np.diff32 (Np.array32 ts)) = (length ts - 1)%nat.
Proof.
  unfold Np.diff32, Np.array32. rewrite length_map, diff_length, length_map.
  reflexivity.
Qed.

Lemma dt_full_monotone (sl : nat) (ts : list Q) :
  length ts = sl -> (1 <= sl)%nat ->
  Np.all_ge0 (Np.diff32 (Np.array32 ts)) = true ->
  dt_full sl ts = Ok (0 :: Np.diff32 (Np.array32 ts)).
Proof.
  intros Hlen Hsl Hmono. unfold dt_full. cbv zeta. rewrite Hmono. simpl negb.
  cbv iota. unfold rbind, Np.zeros_set_tail.
  rewrite diff32_length, Hlen, Nat.eqb_refl.
  destruct sl as [|n]; [lia|].
  simpl firstn. rewrite firstn_nil. reflexivity.
Qed.

Lemma dt_full_fallback (sl : nat) (ts : list Q) :
  (1 <= sl)%nat ->
  Np.all_ge0 (Np.diff32 (Np.array32 ts)) = false ->
  dt_full sl ts = Ok (0 :: repeat fallback_delta (sl - 1)).
Proof.
  intros Hsl Hneg. unfold dt_full. cbv zeta. rewrite Hneg. simpl negb. cbv iota.
  unfold Np.ones32_times.
  destruct (Z.of_nat sl - 1 <? 0)%Z eqn:E; [apply Z.ltb_lt in E; lia|].
  unfold rbind, Np.zeros_set_tail.
  replace (Z.to_nat (Z.of_nat sl - 1)) with (sl - 1)%nat by lia.
  rewrite repeat_length, Nat.eqb_refl.
  destruct sl as [|n]; [lia|].
  simpl firstn. rewrite firstn_nil. reflexivity.
Qed.

(** What lines 266-278 compute, in general: a zero, then the float32
    differences of the float32 stamps, unless one of those is negative. *)
Lemma dt_full_cases (sl : nat) (ts : list Q) :
  length ts = sl ->
  (1 <= sl)%nat ->
  let d := Np.diff32 (Np.array32 ts) in
  (Exists (fun v => v < 0) d ->
   dt_full sl ts = Ok (0 :: repeat fallback_delta (sl - 1)))
  /\ (~ Exists (fun v => v < 0) d -> dt_full sl ts = Ok (0 :: d)).
Proof.
  intros Hlen Hsl d. split.
  - intros H. apply dt_full_fallback; [exact Hsl|].
    apply all_ge0_false. exact H.
  - intros H. apply dt_full_monotone; [exact Hlen|exact Hsl|].
    destruct (Np.all_ge0 (Np.diff32 (Np.array32 ts))) eqn:E; [reflexivity|].
    exfalso. apply H. apply all_ge0_false. exact E.
Qed.

Example fallback_delta_value :
  fallback_delta = 13421773 # 536870912
  /\ Qabs (fallback_delta - 0.025) < 1e-9.
Proof. split; vm_compute; reflexivity. Qed.

Lemma map_snd_combine {A B : Type} (a : list A) (b : list B) :
  length a = length b -> map snd (combine a b) = b.
Proof.
  revert b. induction a as [|x a IH]; intros [|y b] H; simpl in *;
    try discriminate; [reflexivity|].
  f_equal. apply IH. lia.
Qed.

Lemma map_fst_combine {A B : Type} (a : list A) (b : list B) :
  length a = length b -> map fst (combine a b) = a.
Proof.
  revert b. induction a as [|x a IH]; intros [|y b] H; simpl in *;
    try discriminate; [reflexivity|].
  f_equal. apply IH. lia.
Qed.

Lemma zip_channels (nr : nat) (rows cols : list (list Q)) :
  length rows = length cols ->
  Forall (fun r => length r = nr) rows ->
  Forall (fun c => length c = nr) cols ->
  let inp := map (fun rs => combine (fst rs) (snd rs)) (combine rows cols) in
  delta_channel inp = cols /\ range_channel inp = rows.
Proof.
  unfold delta_channel, range_channel.
  revert cols. induction rows as [|r rows IH]; intros [|c cols] Hlen Hr Hc;
    simpl in *; try discriminate; [split; reflexivity|].
  inversion Hr; inversion Hc; subst.
  destruct (IH cols) as [E1 E2]; [lia|assumption|assumption|].
  rewrite E1, E2, map_snd_combine, map_fst_combine by congruence.
  split; reflexivity.
Qed.

Lemma stack_rows (rows out : list (list Q)) :
  Np.stack rows = Ok out ->
  out = rows /\ Forall (fun r => length r = length (hd [] rows)) rows.
Proof.
  unfold Np.stack. destruct rows as [|r rows]; [discriminate|].
  destruct (forallb _ rows) eqn:E; [|discriminate].
  intros H. inversion H. split; [reflexivity|].
  constructor; [reflexivity|].
  rewrite forallb_forall in E. apply Forall_forall.
  intros r' Hin. apply Nat.eqb_eq. apply E. exact Hin.
Qed.

Lemma build_input_channels (sl nr : nat) (scans : list (list Q)) (ts : list Q)
    (inp : tensor) :
  build_input sl nr scans ts = Ok inp ->
  exists dt,
    dt_full sl ts = Ok dt
    /\ delta_channel inp = map (fun d => repeat d nr) dt
    /\ range_channel inp = scans.
Proof.
  unfold build_input. intros H.
  destruct (Np.stack scans) as [rows|x] eqn:Es; [|discriminate].
  apply stack_rows in Es. destruct Es as [-> Hrows].
  destruct (dt_full sl ts) as [dt|x] eqn:Ed; [|discriminate].
  exists dt. split; [reflexivity|].
  simpl in H. unfold Np.stack2 in H.
  destruct (length scans =? length (Np.repeat_cols dt nr))%nat eqn:E1;
    [|discriminate].
  destruct (length (hd [] scans) =? nr)%nat eqn:E2; [|discriminate].
  simpl in H. inversion H as [Hinp].
  apply Nat.eqb_eq in E1. apply Nat.eqb_eq in E2. rewrite E2 in Hrows.
  apply (zip_channels nr); [exact E1|exact Hrows|].
  unfold Np.repeat_cols. apply Forall_forall. intros c Hc.
  apply in_map_iff in Hc. destruct Hc as (d & <- & _). apply repeat_length.
Qed.

(** C1 (the code departs from the claim).  Line 266 casts the stamps to
    float32 before they are subtracted, and near 1.7e9 seconds two float32
    values are 128 s apart.  Stamps at +0 s, +0.3 s and +0.1 s have a
    negative successive difference, yet all three round to 1700000000: no
    difference is negative after the cast, the fallback is not taken and the
    deltas are all zero.  Stamps 25 ms apart give zeros as well, not 0.025.
    The same through [lidar_callback] and [dnn_output]: the delta channel
    the interpreter receives for the first three stamps is zero. *)
Theorem epoch_stamps_lose_their_deltas :
  some_delta_negative [1700000000; 1700000000.3; 1700000000.1]
  /\ Np.array32 [1700000000; 1700000000.3; 1700000000.1]
     = [1700000000; 1700000000; 1700000000]
  /\ dt_full 3 [1700000000; 1700000000.3; 1700000000.1] = Ok [0; 0; 0]
  /\ Forall2 Qeq (Np.diff [1700000000; 1700000000.025; 1700000000.05])
       [0.025; 0.025]
  /\ dt_full 3 [1700000000; 1700000000.025; 1700000000.05] = Ok [0; 0; 0]
  /\ (exists inp,
         emitted (dnn_body (quiet 0 [0; 0])) epoch_node = [Invoke inp]
         /\ delta_channel inp = [[0; 0; 0]; [0; 0; 0]; [0; 0; 0]]).
Proof.
  split.
  { unfold some_delta_negative. simpl. right. left. reflexivity. }
  split; [vm_compute; reflexivity|].
  split; [vm_compute; reflexivity|].
  split; [repeat constructor; reflexivity|].
  split; [vm_compute; reflexivity|].
  eexists. split; vm_compute; reflexivity.
Qed.

(** On stamps that float32 resolves the code does what the claim says, up to
    the rounding of the values. *)
Example deltas_of_monotone_stamps :
  dt_full 3 [0; 0.1; 0.2] = Ok [0; Ieee.float32 0.1; Ieee.float32 0.1]
  /\ Qabs (Ieee.float32 0.1 - 0.1) < 1e-8.
Proof. split; vm_compute; reflexivity. Qed.

Example deltas_of_jumping_stamps :
  dt_full 3 [0; 0.3; 0.1] = Ok [0; fallback_delta; fallback_delta]
  /\ some_delta_negative [0; 0.3; 0.1].
Proof.
  split; [vm_compute; reflexivity|].
  unfold some_delta_negative. simpl. right. left. reflexivity.
Qed.

(** What the interpreter receives on a warm node whose last two scans are
    one second apart. *)
Example input_of_warm_node :
  exists inp,
    emitted (dnn_body (quiet 0 [0; 0])) warm_node = [Invoke inp]
    /\ range_channel inp = [[1; 3; 5]; [1; 3; 5]]
    /\ delta_channel inp = [[0; 0; 0]; [1; 1; 1]].
Proof. eexists. split; [|split]; vm_compute; reflexivity. Qed.

(** ** The ring buffers *)

Section Deque.

Context {A : Type}.
Variable maxlen : nat.

Lemma tl_skipn (k : nat) (l : list A) : tl (skipn k l) = skipn (S k) l.
Proof.
  revert l. induction k as [|k IH]; intros [|a l]; simpl; try reflexivity.
  apply IH.
Qed.

Lemma most_recent_length (l : list A) :
  length (most_recent maxlen l) = Nat.min (length l) maxlen.
Proof. unfold most_recent. rewrite length_skipn. lia. Qed.

Lemma deque_append_most_recent (l : list A) (x : A) :
  deque_append maxlen (most_recent maxlen l) x = most_recent maxlen (l ++ [x]).
Proof.
  unfold deque_append.
  rewrite length_app, most_recent_length. simpl length.
  unfold most_recent. rewrite length_app. simpl length.
  destruct (maxlen <? Nat.min (length l) maxlen + 1)%nat eqn:E.
  - apply Nat.ltb_lt in E.
    replace (length l + 1 - maxlen)%nat with (S (length l - maxlen)) by lia.
    rewrite skipn_app.
    replace (S (length l - maxlen) - length l)%nat with
      (match maxlen with 0 => 1 | S _ => 0 end)%nat by (destruct maxlen; lia).
    destruct maxlen as [|m] eqn:Em.
    + rewrite Nat.sub_0_r, skipn_all.
      rewrite (skipn_all2 (n := S (length l))) by lia. reflexivity.
    + simpl skipn at 3. rewrite <- tl_skipn.
      destruct (skipn (length l - S m) l) as [|a d] eqn:Ed; [|reflexivity].
      apply (f_equal (@length A)) in Ed. rewrite length_skipn in Ed.
      simpl in Ed. lia.
  - apply Nat.ltb_ge in E.
    replace (length l - maxlen)%nat with 0%nat by lia.
    replace (length l + 1 - maxlen)%nat with 0%nat by lia.
    reflexivity.
Qed.

Lemma deque_appends (xs : list A) :
  fold_left (deque_append maxlen) xs [] = most_recent maxlen xs.
Proof.
  induction xs as [|x xs IH] using rev_ind.
  - reflexivity.
  - rewrite fold_left_app. simpl. rewrite IH.
    apply deque_append_most_recent.
Qed.

End Deque.

Lemma push_fields (scan : list Q) (t : Q) (s : node) :
  push scan t s
  = (Ok tt,
     set_buff_ts (deque_append (seq_len s) (buff_ts s) t)
       (set_buff_scans (deque_append (seq_len s) (buff_scans s) scan) s)).
Proof. reflexivity. Qed.

Lemma pushes_fields (xs : list (list Q * Q)) (s : node) :
  seq_len (pushes xs s) = seq_len s
  /\ buff_scans (pushes xs s)
     = fold_left (deque_append (seq_len s)) (map fst xs) (buff_scans s)
  /\ buff_ts (pushes xs s)
     = fold_left (deque_append (seq_len s)) (map snd xs) (buff_ts s).
Proof.
  revert s. induction xs as [|x xs IH]; intros s.
  - repeat split.
  - unfold pushes in *. simpl fold_left. simpl map.
    destruct (IH (exec (push (fst x) (snd x)) s)) as (E1 & E2 & E3).
    rewrite E1, E2, E3. unfold exec. rewrite push_fields. simpl.
    repeat split.
Qed.

(** C2. After the pushes [xs] the two deques hold the last [seq_len] scans
    and timestamps of [xs], in the order they arrived, whatever the
    timestamps are; from [seq_len] pushes on they hold exactly [seq_len]
    entries and the snapshot of [dnn_output] is a copy of both. *)
Theorem buffer_fifo (sl nr : nat) (xs : list (list Q * Q)) :
  let s := pushes xs (init sl nr) in
  buff_scans s = most_recent sl (map fst xs)
  /\ buff_ts s = most_recent sl (map snd xs)
  /\ ((sl <= length xs)%nat ->
      length (buff_scans s) = sl
      /\ length (buff_ts s) = sl
      /\ snapshot s
         = Some (most_recent sl (map fst xs), most_recent sl (map snd xs)))
  /\ ((length xs < sl)%nat -> snapshot s = None).
Proof.
  intros s.
  destruct (pushes_fields xs (init sl nr)) as (E0 & E1 & E2).
  fold s in E0, E1, E2. cbn [init seq_len buff_scans buff_ts] in E0, E1, E2.
  rewrite deque_appends in E1. rewrite deque_appends in E2.
  assert (L1 : length (buff_scans s) = Nat.min (length xs) sl)
    by (rewrite E1, most_recent_length, length_map; reflexivity).
  assert (L2 : length (buff_ts s) = Nat.min (length xs) sl)
    by (rewrite E2, most_recent_length, length_map; reflexivity).
  split; [exact E1|]. split; [exact E2|]. split.
  - intros H. split; [lia|]. split; [lia|].
    unfold snapshot. rewrite E0.
    destruct (length (buff_scans s) <? sl)%nat eqn:E;
      [apply Nat.ltb_lt in E; lia|].
    rewrite E1, E2. reflexivity.
  - intros H. unfold snapshot. rewrite E0.
    destruct (length (buff_scans s) <? sl)%nat eqn:E; [reflexivity|].
    apply Nat.ltb_ge in E. lia.
Qed.

Lemma buffer_fifo_witness :
  length (buff_scans (pushes [([1], 5); ([2], 4); ([3], 6)] (init 2 1))) = 2%nat
  /\ length (buff_ts (pushes [([1], 5); ([2], 4); ([3], 6)] (init 2 1))) = 2%nat
  /\ snapshot (pushes [([1], 5); ([2], 4); ([3], 6)] (init 2 1))
     = Some ([[2]; [3]], [4; 6]).
Proof.
  apply (buffer_fifo 2 1 [([1], 5); ([2], 4); ([3], 6)]). simpl. lia.
Defined.

(** [lidar_callback] either pushes the cleaned, subsampled scan, as float32,
    or, when the indexing raises, logs and leaves the buffers alone. *)
Lemma lidar_callback_cases (msg : LaserScan) (s : node) :
  let cleaned := Np.nan_to_num (ranges msg) in
  let idx := Np.linspace_int (Z.of_nat (length cleaned) - 1) (num_ranges s) in
  match Np.take cleaned idx with
  | Ok picked =>
      lidar_callback msg s = push (Np.array32 picked) (stamp_seconds msg) s
  | Raise x =>
      lidar_callback msg s
      = (Ok tt, set_trace (trace s ++ [LogError InLidar x]) s)
  end.
Proof.
  intros cleaned idx. unfold lidar_callback. unfold_monad.
  fold cleaned. fold idx.
  destruct (Np.take cleaned idx) as [picked|x]; reflexivity.
Qed.

Example warm_node_buffers :
  buff_scans warm_node = [[1; 3; 5]; [1; 3; 5]]
  /\ Forall2 Qeq (buff_ts warm_node) [2.5; 3.5].
Proof. split; [vm_compute; reflexivity|]. vm_compute. repeat constructor. Qed.

(** ** The bag recorder *)

Lemma emitted_app {A : Type} (m : M A) (s : node) (evs : list event) :
  trace (exec m s) = trace s ++ evs -> emitted m s = evs.
Proof.
  intros H. unfold emitted. rewrite H, skipn_app, skipn_all, Nat.sub_diag.
  reflexivity.
Qed.

Lemma _open_bag_eq (e : env) (s : node) :
  _open_bag e s
  = if open_raises e then (Raise RuntimeError, opening e s)
    else (Ok tt, opened e s).
Proof.
  unfold _open_bag. unfold_monad. simpl.
  destruct (open_raises e); reflexivity.
Qed.

Lemma _close_bag_eq (e : env) (s : node) :
  _close_bag e s
  = match writer s with
    | Some h =>
        if close_raises e then (Raise RuntimeError, s)
        else (Ok tt, closed_state (set_trace (trace s ++ [WriterClose h]) s))
    | None => (Ok tt, closed_state s)
    end.
Proof.
  unfold _close_bag. unfold_monad. simpl.
  destruct (writer s); [destruct (close_raises e)|]; reflexivity.
Qed.

Lemma closed_state_Closed (s : node) : Closed (closed_state s).
Proof. repeat split. Qed.

Lemma Closed_closed_state (s : node) : Closed s -> closed_state s = s.
Proof.
  destruct s. unfold Closed, closed_state. simpl.
  intros (-> & -> & ->). reflexivity.
Qed.

Lemma _close_bag_Closed (e : env) (s : node) :
  Closed s -> _close_bag e s = (Ok tt, s).
Proof.
  intros H. rewrite _close_bag_eq.
  destruct H as (Hb & Hw & Hr). rewrite Hw.
  rewrite Closed_closed_state; [reflexivity|repeat split; assumption].
Qed.

Lemma _close_bag_closes (e : env) (s s' : node) :
  _close_bag e s = (Ok tt, s') -> Closed s'.
Proof.
  rewrite _close_bag_eq.
  destruct (writer s); [destruct (close_raises e)|]; intros H;
    inversion H; apply closed_state_Closed.
Qed.

Lemma sensor_cb_not_recording (e : env) (f : frame) (s : node) :
  recording_active s = false -> sensor_cb e f s = (Ok tt, s).
Proof.
  intros H. unfold sensor_cb. unfold_monad. rewrite H. reflexivity.
Qed.

Lemma sensor_cb_writes (e : env) (f : frame) (h : handle) (s : node) :
  recording_active s = true ->
  writer s = Some h ->
  write_raises e = None ->
  sensor_cb e f s = (Ok tt, frame_written e f h s).
Proof.
  intros Hr Hw He. destruct s, e. simpl in Hr, Hw, He. subst.
  unfold sensor_cb, sensor_cb_body, writer_write, frame_written.
  unfold_monad. simpl. repeat rewrite <- app_assoc. reflexivity.
Qed.

Lemma writer_write_counter (e : env) (k : nat) (tp : topic) (m : payload)
    (t : Z) (s : node) :
  msg_counter (exec (writer_write e k tp m t) s) = msg_counter s
  /\ writer (exec (writer_write e k tp m t) s) = writer s.
Proof.
  unfold writer_write. unfold_monad. simpl.
  destruct (writer s) eqn:Ew; [|split; simpl; auto].
  destruct (match write_raises e with Some j => (j =? k)%nat | None => false end);
    split; simpl; auto.
Qed.

Lemma set_trace_same (s : node) : set_trace (trace s ++ []) s = s.
Proof. destruct s. unfold set_trace. simpl. rewrite app_nil_r. reflexivity. Qed.

(** An inference changes nothing but the trace. *)
Lemma dnn_output_effect (e : env) (s : node) :
  exists r evs,
    dnn_output e s = (Ok r, set_trace (trace s ++ evs) s)
    /\ Forall inference_event evs.
Proof.
  unfold dnn_output, dnn_body. unfold_monad.
  destruct (snapshot s) as [[scans_list ts_list]|].
  - destruct (build_input (seq_len s) (num_ranges s) scans_list ts_list)
      as [inp|x] eqn:Eb.
    + destruct (min_max_defined inp) as [[]|x] eqn:Em.
      * destruct (interpreter e inp) as [out|x] eqn:Ei.
        -- destruct (Np.getitem out 0) as [out0|x] eqn:E0.
           ++ destruct (Np.getitem out 1) as [out1|x] eqn:E1.
              ** exists (out0, out1), [Invoke inp].
                 split; [reflexivity|repeat constructor].
              ** exists (0.0, 0.0), [Invoke inp; LogError InDnn x].
                 split; [|repeat constructor].
                 destruct s. simpl. rewrite <- app_assoc. reflexivity.
           ++ exists (0.0, 0.0), [Invoke inp; LogError InDnn x].
              split; [|repeat constructor].
              destruct s. simpl. rewrite <- app_assoc. reflexivity.
        -- exists (0.0, 0.0), [Invoke inp; LogError InDnn x].
           split; [|repeat constructor].
           destruct s. simpl. rewrite <- app_assoc. reflexivity.
      * exists (0.0, 0.0), [LogError InDnn x].
        split; [reflexivity|repeat constructor].
    + exists (0.0, 0.0), [LogError InDnn x].
      split; [reflexivity|repeat constructor].
  - exists (0.0, 0.0), []. split; [|constructor].
    rewrite set_trace_same. reflexivity.
Qed.

(** The five ways through [control_loop]. *)
Lemma control_loop_manual (e : env) (s : node) :
  is_joy s = true ->
  control_loop e s
  = if bag_open s then (Ok tt, s)
    else if open_raises e then
      (Ok tt, set_trace (trace (opening e s) ++ [LogError InControl RuntimeError])
                (opening e s))
    else (Ok tt, opened e s).
Proof.
  intros Hjoy. unfold control_loop.
  unfold try_except at 1. unfold bind at 1. unfold get at 1.
  unfold bind at 1. unfold get at 1. rewrite Hjoy.
  unfold bind at 1.
  destruct (bag_open s); cbn [andb negb].
  - reflexivity.
  - rewrite _open_bag_eq. destruct (open_raises e); reflexivity.
Qed.

Lemma control_loop_close_raises (e : env) (s : node) (x : exn) (s1 : node) :
  is_joy s = false ->
  bag_open s = true ->
  _close_bag e s = (Raise x, s1) ->
  control_loop e s = (Ok tt, set_trace (trace s1 ++ [LogError InControl x]) s1).
Proof.
  intros Hjoy Hbo Hc. unfold control_loop.
  unfold try_except at 1. unfold bind at 1. unfold get at 1.
  unfold bind at 1. unfold get at 1. rewrite Hjoy, Hbo.
  unfold bind at 1. cbn [andb negb]. rewrite Hc. reflexivity.
Qed.

Lemma control_loop_autonomous_effect (e : env) (s s1 : node) :
  is_joy s = false ->
  (if bag_open s then _close_bag e s = (Ok tt, s1) else s1 = s) ->
  exists speed steer evs,
    Forall inference_event evs
    /\ control_loop e s
       = (Ok tt, published speed steer (set_trace (trace s1 ++ evs) s1)).
Proof.
  intros Hjoy Hpre.
  destruct (dnn_output_effect e s1) as ([raw_steer raw_speed] & evs & E & F).
  do 2 eexists. exists evs. split; [exact F|].
  apply (control_loop_autonomous e s s1 _ raw_steer raw_speed Hjoy Hpre E).
Qed.

(** ** The mode toggle *)

Lemma getitem_head {A : Type} (b : A) (rest : list A) :
  Np.getitem (b :: rest) 0 = Ok b.
Proof.
  unfold Np.getitem. simpl Z.ltb. cbv iota.
  destruct (Z.of_nat (length (b :: rest)) <=? 0)%Z eqn:E.
  - apply Z.leb_le in E. simpl length in E. lia.
  - reflexivity.
Qed.

Lemma button_callback_no_button (e : env) (msg : Joy) (s : node) :
  buttons msg = [] ->
  button_callback e msg s
  = (Ok tt, set_trace (trace s ++ [LogError InButton IndexError]) s).
Proof. intros H. unfold button_callback. rewrite H. reflexivity. Qed.

Lemma button_callback_eq (e : env) (msg : Joy) (b : Z) (rest : list Z) (s : node) :
  buttons msg = b :: rest ->
  button_callback e msg s
  = if ((b =? 1)%Z && negb (b =? prev_button s)%Z)%bool then
      let s1 := set_is_joy (negb (is_joy s)) s in
      if negb (is_joy s) then
        if negb (bag_open s) then
          if open_raises e then
            (Ok tt,
             set_trace (trace (opening e s1) ++ [LogError InButton RuntimeError])
               (opening e s1))
          else (Ok tt, set_prev_button b (opened e s1))
        else (Ok tt, set_prev_button b (set_recording_active true s1))
      else
        match _close_bag e s1 with
        | (Ok _, s2) => (Ok tt, set_prev_button b s2)
        | (Raise x, s2) =>
            (Ok tt, set_trace (trace s2 ++ [LogError InButton x]) s2)
        end
    else (Ok tt, set_prev_button b s).
Proof.
  intros H. unfold button_callback.
  unfold try_except at 1. unfold bind at 1. unfold lift at 1.
  rewrite H, getitem_head.
  unfold bind at 1. unfold get at 1. unfold bind at 1. unfold when.
  destruct ((b =? 1)%Z && negb (b =? prev_button s)%Z)%bool; [|reflexivity].
  unfold bind at 1. unfold get at 1.
  unfold bind at 1. unfold modify at 1.
  cbv zeta.
  destruct (is_joy s); cbn [negb].
  - destruct (_close_bag e (set_is_joy false s)) as [[[]|x] s2]; reflexivity.
  - unfold bind at 1. unfold get at 1.
    change (bag_open (set_is_joy true s)) with (bag_open s).
    destruct (bag_open s); cbn [negb].
    + reflexivity.
    + rewrite _open_bag_eq. destruct (open_raises e); reflexivity.
Qed.

Lemma _close_bag_mode (e : env) (s : node) :
  is_joy (exec (_close_bag e) s) = is_joy s
  /\ prev_button (exec (_close_bag e) s) = prev_button s.
Proof.
  unfold exec. rewrite _close_bag_eq.
  destruct (writer s); [destruct (close_raises e)|]; split; reflexivity.
Qed.

Lemma button_callback_mode (e : env) (msg : Joy) (s : node) :
  is_joy (exec (button_callback e msg) s)
  = match buttons msg with
    | b :: _ =>
        if ((b =? 1)%Z && negb (b =? prev_button s)%Z)%bool
        then negb (is_joy s) else is_joy s
    | [] => is_joy s
    end.
Proof.
  unfold exec. destruct (buttons msg) as [|b rest] eqn:Hb.
  - rewrite button_callback_no_button by exact Hb. reflexivity.
  - rewrite (button_callback_eq e msg b rest s Hb).
    destruct ((b =? 1)%Z && negb (b =? prev_button s)%Z)%bool; [|reflexivity].
    cbv zeta. destruct (is_joy s) eqn:Hj; cbn [negb].
    + pose proof (proj1 (_close_bag_mode e (set_is_joy false s))) as Hm.
      unfold exec in Hm.
      destruct (_close_bag e (set_is_joy false s)) as [[[]|x] s2];
        simpl in *; exact Hm.
    + destruct (bag_open s); cbn [negb]; [reflexivity|].
      destruct (open_raises e); reflexivity.
Qed.

Lemma negb_fixpoint_free (b : bool) : b = negb b -> False.
Proof. destruct b; discriminate. Qed.

(** What [button_callback] does when nothing raises, and on one message in
    general: with the first press opening the bag, [0,1,1,0,1] flips the
    mode at positions 2 and 5; a reading of 0 never flips it; a 1 while
    [prev_button] is 1 changes nothing; and the mode flips exactly when the
    reading is 1 and [prev_button] is 0. *)
Lemma button_callback_edges :
  (forall (e1 e2 e3 e4 e5 : env) (sl nr : nat),
      open_raises e2 = false ->
      flip_positions 1
        [(e1, joy_msg [0%Z]); (e2, joy_msg [1%Z]); (e3, joy_msg [1%Z]);
         (e4, joy_msg [0%Z]); (e5, joy_msg [1%Z])] (init sl nr)
      = [2%nat; 5%nat])
  /\ (forall e msg s rest,
         buttons msg = 0%Z :: rest ->
         is_joy (exec (button_callback e msg) s) = is_joy s)
  /\ (forall e msg s rest,
         buttons msg = 1%Z :: rest ->
         prev_button s = 1%Z ->
         exec (button_callback e msg) s = s)
  /\ (forall e msg s,
         prev_button s = 0%Z \/ prev_button s = 1%Z ->
         (is_joy (exec (button_callback e msg) s) = negb (is_joy s)
          <-> exists rest, buttons msg = 1%Z :: rest /\ prev_button s = 0%Z)).
Proof.
  split; [|split; [|split]].
  - intros e1 e2 e3 e4 e5 sl nr H2.
    destruct e2 as [now2 clk2 or2 cr2 wr2 it2]. simpl in H2. subst or2.
    destruct e5 as [now5 clk5 or5 [|] wr5 it5]; reflexivity.
  - intros e msg s rest H. rewrite button_callback_mode, H. reflexivity.
  - intros e msg s rest H Hp. unfold exec.
    rewrite (button_callback_eq e msg 1%Z rest s H), Hp. simpl.
    destruct s. simpl in Hp. subst. reflexivity.
  - intros e msg s Hp. rewrite button_callback_mode.
    destruct (buttons msg) as [|b rest].
    + split.
      * intros H. symmetry in H. destruct (negb_fixpoint_free _ (eq_sym H)).
      * intros (rest & H & _). discriminate.
    + destruct (b =? 1)%Z eqn:E1.
      * apply Z.eqb_eq in E1. subst b.
        destruct Hp as [Hp|Hp]; rewrite Hp; simpl.
        -- split; [intros _; exists rest; split; reflexivity|reflexivity].
        -- split.
           ++ intros H. destruct (negb_fixpoint_free _ H).
           ++ intros (r & _ & H). discriminate.
      * simpl. split.
        -- intros H. destruct (negb_fixpoint_free _ H).
        -- intros (r & H & _). inversion H. subst. discriminate.
Qed.

(** C6 (the code departs from the claim).  A press flips [is_joy] (line
    165) before the bag is opened (line 170); when the opening raises, the
    assignment [self.prev_button = curr] (line 175) is skipped, so
    [prev_button] is still 0 and the held 1 that follows flips the mode
    again: on [0,1,1,0,1] the mode flips at positions 2, 3 and 5. *)
Theorem held_button_flips_again (e1 e2 e3 e4 e5 : env) (sl nr : nat) :
  open_raises e2 = true ->
  flip_positions 1
    [(e1, joy_msg [0%Z]); (e2, joy_msg [1%Z]); (e3, joy_msg [1%Z]);
     (e4, joy_msg [0%Z]); (e5, joy_msg [1%Z])] (init sl nr)
  = [2%nat; 3%nat; 5%nat]
  /\ prev_button
       (exec (button_callback e2 (joy_msg [1%Z]))
          (exec (button_callback e1 (joy_msg [0%Z])) (init sl nr)))
     = 0%Z
  /\ is_joy
       (exec (button_callback e2 (joy_msg [1%Z]))
          (exec (button_callback e1 (joy_msg [0%Z])) (init sl nr)))
     = true.
Proof.
  intros H2.
  destruct e2 as [now2 clk2 or2 cr2 wr2 it2]. simpl in H2. subst or2.
  split; [|split; reflexivity].
  destruct e3 as [now3 clk3 or3 [|] wr3 it3];
    destruct e5 as [now5 clk5 [|] cr5 wr5 it5]; reflexivity.
Qed.

Lemma held_button_flips_again_witness :
  flip_positions 1
    [(quiet 1 [], joy_msg [0%Z]); (cannot_open 2, joy_msg [1%Z]);
     (quiet 3 [], joy_msg [1%Z]); (quiet 4 [], joy_msg [0%Z]);
     (quiet 5 [], joy_msg [1%Z])] (init 2 3)
  = [2%nat; 3%nat; 5%nat]
  /\ prev_button
       (exec (button_callback (cannot_open 2) (joy_msg [1%Z]))
          (exec (button_callback (quiet 1 []) (joy_msg [0%Z])) (init 2 3)))
     = 0%Z
  /\ is_joy
       (exec (button_callback (cannot_open 2) (joy_msg [1%Z]))
          (exec (button_callback (quiet 1 []) (joy_msg [0%Z])) (init 2 3)))
     = true.
Proof.
  apply (held_button_flips_again
           (quiet 1 []) (cannot_open 2) (quiet 3 []) (quiet 4 []) (quiet 5 [])).
  reflexivity.
Defined.

(** ** The recording session *)

Lemma not_opens_bag {A : Type} (m : M A) (s : node) (evs : list event) :
  trace (exec m s) = trace s ++ evs ->
  Forall (fun ev => ~ is_writer_new ev) evs ->
  ~ opens_bag m s.
Proof.
  intros Ht Hf [h Hin]. rewrite (emitted_app m s evs Ht) in Hin.
  rewrite Forall_forall in Hf. apply (Hf _ Hin). exact I.
Qed.

Lemma inference_event_not_new (evs : list event) :
  Forall inference_event evs -> Forall (fun ev => ~ is_writer_new ev) evs.
Proof.
  apply Forall_impl. intros [] H; simpl in *; tauto.
Qed.

Lemma _close_bag_trace (e : env) (s : node) :
  exists evs,
    trace (exec (_close_bag e) s) = trace s ++ evs
    /\ Forall (fun ev => ~ is_writer_new ev) evs.
Proof.
  unfold exec. rewrite _close_bag_eq.
  destruct (writer s) as [h|]; [destruct (close_raises e)|].
  - exists []. rewrite app_nil_r. split; [reflexivity|constructor].
  - exists [WriterClose h]. split; [reflexivity|].
    repeat constructor. intros [].
  - exists []. rewrite app_nil_r. split; [reflexivity|constructor].
Qed.

Lemma button_callback_open_guard (e : env) (msg : Joy) (s : node) :
  opens_bag (button_callback e msg) s -> bag_open s = false.
Proof.
  intros H. destruct (bag_open s) eqn:Hbo; [exfalso|reflexivity].
  revert H. destruct (buttons msg) as [|b rest] eqn:Hb.
  - apply not_opens_bag with (evs := [LogError InButton IndexError]).
    + unfold exec. rewrite button_callback_no_button by exact Hb. reflexivity.
    + repeat constructor. intros [].
  - destruct (_close_bag_trace e (set_is_joy (negb (is_joy s)) s))
      as (cevs & Hc & Hf).
    unfold exec in Hc.
    destruct ((b =? 1)%Z && negb (b =? prev_button s)%Z)%bool eqn:Hcond.
    + destruct (is_joy s) eqn:Hj.
      * destruct (_close_bag e (set_is_joy (negb true) s)) as [[[]|x] s2] eqn:Ec.
        -- apply not_opens_bag with (evs := cevs); [|exact Hf].
           unfold exec. rewrite (button_callback_eq e msg b rest s Hb).
           rewrite Hcond, Hj. cbv zeta. cbn [negb] in *. rewrite Ec.
           simpl in *. exact Hc.
        -- apply not_opens_bag with (evs := cevs ++ [LogError InButton x]).
           ++ unfold exec. rewrite (button_callback_eq e msg b rest s Hb).
              rewrite Hcond, Hj. cbv zeta. cbn [negb] in *. rewrite Ec.
              simpl in *. rewrite Hc, app_assoc. reflexivity.
           ++ apply Forall_app. split; [exact Hf|].
              repeat constructor. intros [].
      * apply not_opens_bag with (evs := []); [|constructor].
        unfold exec. rewrite (button_callback_eq e msg b rest s Hb).
        rewrite Hcond, Hj, Hbo. simpl. rewrite app_nil_r. reflexivity.
    + apply not_opens_bag with (evs := []); [|constructor].
      unfold exec. rewrite (button_callback_eq e msg b rest s Hb).
      rewrite Hcond. simpl. rewrite app_nil_r. reflexivity.
Qed.

Lemma control_loop_open_guard (e : env) (s : node) :
  opens_bag (control_loop e) s -> bag_open s = false.
Proof.
  intros H. destruct (bag_open s) eqn:Hbo; [exfalso|reflexivity].
  revert H. destruct (is_joy s) eqn:Hj.
  - apply not_opens_bag with (evs := []); [|constructor].
    unfold exec. rewrite control_loop_manual by exact Hj.
    rewrite Hbo, app_nil_r. reflexivity.
  - destruct (_close_bag_trace e s) as (cevs & Hc & Hf). unfold exec in Hc.
    destruct (_close_bag e s) as [[[]|x] s1] eqn:Ec; simpl in Hc.
    + destruct (control_loop_autonomous_effect e s s1 Hj) as
        (speed & steer & evs & Fe & E).
      { rewrite Hbo. exact Ec. }
      apply not_opens_bag with (evs := cevs ++ evs ++ [Publish speed steer]).
      * unfold exec. rewrite E. simpl. rewrite Hc.
        rewrite <- !app_assoc. reflexivity.
      * apply Forall_app. split; [exact Hf|].
        apply Forall_app. split; [apply inference_event_not_new; exact Fe|].
        repeat constructor. intros [].
    + apply not_opens_bag with (evs := cevs ++ [LogError InControl x]).
      * unfold exec. rewrite (control_loop_close_raises e s x s1 Hj Hbo Ec).
        simpl. rewrite Hc, app_assoc. reflexivity.
      * apply Forall_app. split; [exact Hf|].
        repeat constructor. intros [].
Qed.

Lemma sensor_cb_write_fails (e : env) (f : frame) (k : nat) (s : node) :
  write_raises e = Some k ->
  (k < 6)%nat ->
  msg_counter (exec (sensor_cb e f) s) = msg_counter s.
Proof.
  intros He Hk. destruct s, e. simpl in He. subst.
  unfold sensor_cb, sensor_cb_body, writer_write. unfold_monad. simpl.
  destruct recording_active0; [|reflexivity].
  destruct writer0; [|reflexivity]. simpl.
  do 6 (destruct k as [|k]; [reflexivity|]). lia.
Qed.

Lemma _open_bag_opens (e : env) (s s' : node) :
  _open_bag e s = (Ok tt, s') ->
  msg_counter s' = 0%Z /\ bag_open s' = true /\ recording_active s' = true
  /\ writer s' = Some (time_now e).
Proof.
  rewrite _open_bag_eq. destruct (open_raises e); [discriminate|].
  intros H. inversion H. repeat split.
Qed.

(** C7. Closing a closed recorder changes nothing, and a successful close
    leaves the recorder closed; a frame that arrives while the recorder is
    not recording is dropped and the counter stays; a successful open sets
    the counter to 0 and a frame whose writes succeed adds exactly 1 (a
    frame with a failing write adds nothing), so open, two frames, close
    ends with the counter at 2; and neither caller of [_open_bag] calls it
    while [bag_open] holds. *)
Theorem session_recorder :
  (forall e s, Closed s -> _close_bag e s = (Ok tt, s))
  /\ (forall e s s',
         _close_bag e s = (Ok tt, s') ->
         Closed s' /\ forall e', _close_bag e' s' = (Ok tt, s'))
  /\ (forall e f s,
         recording_active s = false -> sensor_cb e f s = (Ok tt, s))
  /\ (forall e s s',
         _open_bag e s = (Ok tt, s') ->
         msg_counter s' = 0%Z /\ bag_open s' = true
         /\ recording_active s' = true /\ writer s' = Some (time_now e))
  /\ (forall e f h s,
         recording_active s = true ->
         writer s = Some h ->
         write_raises e = None ->
         sensor_cb e f s = (Ok tt, frame_written e f h s)
         /\ msg_counter (exec (sensor_cb e f) s) = (msg_counter s + 1)%Z)
  /\ (forall e f k s,
         write_raises e = Some k -> (k < 6)%nat ->
         msg_counter (exec (sensor_cb e f) s) = msg_counter s)
  /\ (forall e1 e2 e3 e4 f1 f2 s,
         open_raises e1 = false ->
         write_raises e2 = None ->
         write_raises e3 = None ->
         let s3 := exec (sensor_cb e3 f2)
                     (exec (sensor_cb e2 f1) (exec (_open_bag e1) s)) in
         msg_counter s3 = 2%Z
         /\ msg_counter (exec (_close_bag e4) s3) = 2%Z)
  /\ (forall e msg s,
         opens_bag (button_callback e msg) s -> bag_open s = false)
  /\ (forall e s, opens_bag (control_loop e) s -> bag_open s = false).
Proof.
  split; [exact _close_bag_Closed|].
  split.
  { intros e s s' H. pose proof (_close_bag_closes e s s' H) as C.
    split; [exact C|]. intros e'. apply _close_bag_Closed. exact C. }
  split; [exact sensor_cb_not_recording|].
  split; [exact _open_bag_opens|].
  split.
  { intros e f h s Hr Hw He.
    pose proof (sensor_cb_writes e f h s Hr Hw He) as E.
    split; [exact E|]. unfold exec. rewrite E. reflexivity. }
  split; [exact sensor_cb_write_fails|].
  split.
  { intros e1 e2 e3 e4 f1 f2 s H1 H2 H3.
    assert (E1 : exec (_open_bag e1) s = opened e1 s)
      by (unfold exec; rewrite _open_bag_eq, H1; reflexivity).
    rewrite E1.
    assert (E2 : exec (sensor_cb e2 f1) (opened e1 s)
                 = frame_written e2 f1 (time_now e1) (opened e1 s))
      by (unfold exec; rewrite (sensor_cb_writes e2 f1 (time_now e1));
          [reflexivity|reflexivity|reflexivity|exact H2]).
    rewrite E2.
    assert (E3 : exec (sensor_cb e3 f2)
                   (frame_written e2 f1 (time_now e1) (opened e1 s))
                 = frame_written e3 f2 (time_now e1)
                     (frame_written e2 f1 (time_now e1) (opened e1 s)))
      by (unfold exec; rewrite (sensor_cb_writes e3 f2 (time_now e1));
          [reflexivity|reflexivity|reflexivity|exact H3]).
    rewrite E3. cbv zeta. split; [reflexivity|].
    unfold exec. rewrite _close_bag_eq. simpl.
    destruct (close_raises e4); reflexivity. }
  split; [exact button_callback_open_guard|exact control_loop_open_guard].
Qed.

Lemma session_recorder_witness :
  _close_bag (quiet 9 []) (init 2 3) = (Ok tt, init 2 3)
  /\ sensor_cb (quiet 9 []) (frame_from 1) (init 2 3)
     = (Ok tt, init 2 3)
  /\ msg_counter
       (exec (_close_bag (quiet 4 []))
          (exec (sensor_cb (quiet 3 []) (frame_from 7))
             (exec (sensor_cb (quiet 2 []) (frame_from 1))
                (exec (_open_bag (quiet 1 [])) (init 2 3))))) = 2%Z.
Proof.
  destruct session_recorder as (H1 & _ & H3 & _ & _ & _ & H7 & _).
  split; [apply H1; repeat split|].
  split; [apply H3; reflexivity|].
  apply (H7 (quiet 1 []) (quiet 2 []) (quiet 3 []) (quiet 4 [])); reflexivity.
Defined.

(** ** The recording invariant *)

Lemma recording_inv_init (sl nr : nat) : recording_inv (init sl nr).
Proof. split; simpl; discriminate. Qed.

Lemma recording_inv_fields (s s' : node) :
  recording_active s' = recording_active s ->
  bag_open s' = bag_open s ->
  writer s' = writer s ->
  recording_inv s -> recording_inv s'.
Proof.
  unfold recording_inv. intros -> -> ->. tauto.
Qed.

Lemma recording_inv_opening (e : env) (s : node) :
  recording_inv s -> recording_inv (opening e s).
Proof.
  unfold recording_inv. simpl. intros [H1 H2].
  split; [exact H1|]. intros _. discriminate.
Qed.

Lemma recording_inv_opened (e : env) (s : node) : recording_inv (opened e s).
Proof. split; simpl; [reflexivity|discriminate]. Qed.

Lemma recording_inv_closed (s : node) : recording_inv (closed_state s).
Proof. split; simpl; discriminate. Qed.

Lemma recording_inv_open (e : env) (s : node) :
  recording_inv s -> recording_inv (exec (_open_bag e) s).
Proof.
  intros H. unfold exec. rewrite _open_bag_eq.
  destruct (open_raises e); simpl.
  - apply recording_inv_opening. exact H.
  - apply recording_inv_opened.
Qed.

Lemma recording_inv_close (e : env) (s : node) :
  recording_inv s -> recording_inv (exec (_close_bag e) s).
Proof.
  intros H. unfold exec. rewrite _close_bag_eq.
  destruct (writer s); [destruct (close_raises e)|]; simpl;
    [exact H|apply recording_inv_closed|apply recording_inv_closed].
Qed.

Lemma recording_inv_button (e : env) (msg : Joy) (s : node) :
  recording_inv s -> recording_inv (exec (button_callback e msg) s).
Proof.
  intros H. unfold exec. destruct (buttons msg) as [|b rest] eqn:Hb.
  - rewrite button_callback_no_button by exact Hb.
    revert H. apply recording_inv_fields; reflexivity.
  - rewrite (button_callback_eq e msg b rest s Hb).
    destruct ((b =? 1)%Z && negb (b =? prev_button s)%Z)%bool;
      [|revert H; apply recording_inv_fields; reflexivity].
    cbv zeta.
    assert (H1 : recording_inv (set_is_joy (negb (is_joy s)) s))
      by (revert H; apply recording_inv_fields; reflexivity).
    destruct (negb (is_joy s)).
    + destruct (bag_open s) eqn:Hbo; cbn [negb].
      * simpl. destruct H as [Ha Hw]. split; simpl; [intros _; exact Hbo|exact Hw].
      * destruct (open_raises e); simpl.
        -- apply (recording_inv_fields (opening e (set_is_joy true s)));
             [reflexivity|reflexivity|reflexivity|].
           apply recording_inv_opening. exact H1.
        -- apply (recording_inv_fields (opened e (set_is_joy true s)));
             [reflexivity|reflexivity|reflexivity|].
           apply recording_inv_opened.
    + pose proof (recording_inv_close e _ H1) as Hc. unfold exec in Hc.
      destruct (_close_bag e (set_is_joy false s)) as [[[]|x] s2];
        simpl in *; revert Hc; apply recording_inv_fields; reflexivity.
Qed.

Lemma recording_inv_control (e : env) (s : node) :
  recording_inv s -> recording_inv (exec (control_loop e) s).
Proof.
  intros H. unfold exec. destruct (is_joy s) eqn:Hj.
  - rewrite control_loop_manual by exact Hj.
    destruct (bag_open s); [exact H|].
    destruct (open_raises e); simpl.
    + apply (recording_inv_fields (opening e s));
        [reflexivity|reflexivity|reflexivity|].
      apply recording_inv_opening. exact H.
    + apply recording_inv_opened.
  - pose proof (recording_inv_close e s H) as Hc. unfold exec in Hc.
    destruct (bag_open s) eqn:Hbo.
    + destruct (_close_bag e s) as [[[]|x] s1] eqn:Ec.
      * destruct (control_loop_autonomous_effect e s s1 Hj) as
          (speed & steer & evs & _ & E); [rewrite Hbo; exact Ec|].
        rewrite E. simpl in *. revert Hc.
        apply recording_inv_fields; reflexivity.
      * rewrite (control_loop_close_raises e s x s1 Hj Hbo Ec).
        simpl in *. revert Hc. apply recording_inv_fields; reflexivity.
    + destruct (control_loop_autonomous_effect e s s Hj) as
        (speed & steer & evs & _ & E); [rewrite Hbo; reflexivity|].
      rewrite E. simpl. revert H. apply recording_inv_fields; reflexivity.
Qed.

Lemma sensor_cb_recording (e : env) (f : frame) (s : node) :
  recording_active (exec (sensor_cb e f) s) = recording_active s
  /\ bag_open (exec (sensor_cb e f) s) = bag_open s
  /\ writer (exec (sensor_cb e f) s) = writer s.
Proof.
  destruct s, e.
  unfold sensor_cb, sensor_cb_body, writer_write. unfold_monad. simpl.
  destruct recording_active0; [|repeat split].
  destruct writer0; [|repeat split]. simpl.
  destruct write_raises0 as [k|]; [|repeat split].
  do 6 (destruct k as [|k]; [repeat split|]). repeat split.
Qed.

Lemma lidar_callback_recording (msg : LaserScan) (s : node) :
  recording_active (exec (lidar_callback msg) s) = recording_active s
  /\ bag_open (exec (lidar_callback msg) s) = bag_open s
  /\ writer (exec (lidar_callback msg) s) = writer s.
Proof.
  pose proof (lidar_callback_cases msg s) as H. cbv zeta in H.
  unfold exec.
  destruct (Np.take _ _); rewrite H; [rewrite push_fields|]; repeat split.
Qed.

Lemma reachable_recording_inv (s : node) : reachable s -> recording_inv s.
Proof.
  induction 1.
  - apply recording_inv_init.
  - destruct (lidar_callback_recording msg s) as (E1 & E2 & E3).
    apply (recording_inv_fields s); assumption.
  - apply recording_inv_button. assumption.
  - destruct (sensor_cb_recording e f s) as (E1 & E2 & E3).
    apply (recording_inv_fields s); assumption.
  - apply recording_inv_control. assumption.
  - revert IHreachable. apply recording_inv_fields; reflexivity.
  - apply recording_inv_close. assumption.
Qed.

Lemma sensor_cb_body_writer (e : env) (f : frame) (h : handle) (s : node) :
  writer s = Some h -> fst (sensor_cb_body e f s) <> Raise AttributeError.
Proof.
  intros Hw. destruct s, e. simpl in Hw. subst.
  unfold sensor_cb_body, writer_write. unfold_monad. simpl.
  destruct write_raises0 as [k|]; [|discriminate].
  do 6 (destruct k as [|k]; [discriminate|]). discriminate.
Qed.

(** C10. [recording_active] implies [bag_open] and a writer: this holds
    after [__init__] and, together with "[bag_open] implies a writer", is
    kept by [button_callback], [_open_bag], [_close_bag] and [control_loop];
    so it holds in every state the node reaches, and there the writes of
    [sensor_cb] never find [self.writer] to be [None]. *)
Theorem recording_invariant :
  (forall sl nr, recording_inv (init sl nr))
  /\ (forall s,
         recording_inv s ->
         (forall e msg, recording_inv (exec (button_callback e msg) s))
         /\ (forall e, recording_inv (exec (_open_bag e) s))
         /\ (forall e, recording_inv (exec (_close_bag e) s))
         /\ (forall e, recording_inv (exec (control_loop e) s)))
  /\ (forall s,
         reachable s ->
         recording_active s = true ->
         bag_open s = true /\ writer s <> None)
  /\ (forall s e f,
         reachable s ->
         recording_active s = true ->
         fst (sensor_cb_body e f s) <> Raise AttributeError).
Proof.
  split; [exact recording_inv_init|].
  split.
  { intros s H.
    split; [intros e msg; apply recording_inv_button; exact H|].
    split; [intros e; apply recording_inv_open; exact H|].
    split; [intros e; apply recording_inv_close; exact H|].
    intros e. apply recording_inv_control. exact H. }
  split.
  { intros s Hr Ha. destruct (reachable_recording_inv s Hr) as [H1 H2].
    split; [exact (H1 Ha)|exact (H2 (H1 Ha))]. }
  intros s e f Hr Ha. destruct (reachable_recording_inv s Hr) as [H1 H2].
  destruct (writer s) as [h|] eqn:Hw.
  - apply (sensor_cb_body_writer e f h). exact Hw.
  - exfalso. apply (H2 (H1 Ha)). reflexivity.
Qed.

Lemma recording_invariant_witness :
  (bag_open (exec (button_callback (quiet 2 []) (joy_msg [1%Z])) (init 2 3))
   = true
   /\ writer (exec (button_callback (quiet 2 []) (joy_msg [1%Z])) (init 2 3))
      <> None)
  /\ fst (sensor_cb_body (quiet 3 []) (frame_from 1)
            (exec (button_callback (quiet 2 []) (joy_msg [1%Z])) (init 2 3)))
     <> Raise AttributeError.
Proof.
  destruct recording_invariant as (_ & _ & H3 & H4).
  split.
  - apply H3; [apply reach_button; apply reach_init|reflexivity].
  - apply H4; [apply reach_button; apply reach_init|reflexivity].
Defined.

(** Without a writer the first write of [sensor_cb] does raise, and the
    frame is lost: the invariant is what rules this out. *)
Example sensor_cb_without_writer :
  fst (sensor_cb_body (quiet 3 []) (frame_from 1)
         (set_recording_active true (init 2 3)))
  = Raise AttributeError.
Proof. reflexivity. Qed.

(** * Further properties of the code *)

(** ** [linear_map] as a change of scale *)







(** ** The delta array *)

Lemma all_ge0_true (d : list Q) :
  Np.all_ge0 d = true -> Forall (fun v => 0 <= v) d.
Proof.
  unfold Np.all_ge0. rewrite forallb_forall, Forall_forall.
  intros H v Hin. apply Qle_bool_iff. apply H. exact Hin.
Qed.

(** X4. For a snapshot of [seq_len] timestamps the delta array has
    [seq_len] entries and none of them is negative, whichever branch is
    taken. *)
Theorem dt_full_shape (sl : nat) (ts : list Q) :
  length ts = sl ->
  (1 <= sl)%nat ->
  exists dt,
    dt_full sl ts = Ok dt
    /\ length dt = sl
    /\ Forall (fun d => 0 <= d) dt.
Proof.
  intros Hlen Hsl. destruct (Np.all_ge0 (Np.diff32 (Np.array32 ts))) eqn:E.
  - exists (0 :: Np.diff32 (Np.array32 ts)).
    split; [apply dt_full_monotone; assumption|].
    split; [simpl; rewrite diff32_length; lia|].
    constructor; [apply Qle_refl|apply all_ge0_true; exact E].
  - exists (0 :: repeat fallback_delta (sl - 1)).
    split; [apply dt_full_fallback; assumption|].
    split; [simpl; rewrite repeat_length; lia|].
    constructor; [apply Qle_refl|].
    apply Forall_forall. intros d Hd. apply repeat_spec in Hd. subst.
    vm_compute. discriminate.
Qed.

Lemma dt_full_shape_witness :
  exists dt,
    dt_full 3 [0; 0.3; 0.1] = Ok dt
    /\ length dt = 3%nat
    /\ Forall (fun d => 0 <= d) dt.
Proof. apply (dt_full_shape 3 [0; 0.3; 0.1]); [reflexivity|lia]. Defined.

(** ** The mode toggle when nothing raises *)

Lemma button_callback_prev (e : env) (msg : Joy) (b : Z) (rest : list Z)
    (s : node) :
  fault_free e ->
  buttons msg = b :: rest ->
  prev_button (exec (button_callback e msg) s) = b.
Proof.
  intros [Ho Hc] Hb. unfold exec.
  rewrite (button_callback_eq e msg b rest s Hb).
  destruct ((b =? 1)%Z && negb (b =? prev_button s)%Z)%bool; [|reflexivity].
  cbv zeta. destruct (negb (is_joy s)).
  - destruct (negb (bag_open s)); [rewrite Ho|]; reflexivity.
  - rewrite _close_bag_eq, Hc.
    destruct (writer (set_is_joy false s)); reflexivity.
Qed.

(** X5. When neither opening nor closing the bag raises, the mode flips at
    exactly the rising edges of button 0, over any sequence of Joy messages
    and from any state: the positions where the reading is 1 and the reading
    before (at first, [prev_button]) is not. *)
Theorem flips_at_rising_edges (steps : list (env * Joy)) (k : nat) (s : node) :
  Forall (fun st => fault_free (fst st) /\ buttons (snd st) <> []) steps ->
  flip_positions k steps s
  = rising_edges k (prev_button s)
      (map (fun st => first_button (snd st)) steps).
Proof.
  revert k s. induction steps as [|[e msg] steps IH]; intros k s H.
  - reflexivity.
  - inversion H as [|? ? [Hf Hne] Hrest]; subst. simpl in Hf, Hne.
    destruct (buttons msg) as [|b rest] eqn:Hb; [contradiction|].
    simpl flip_positions. simpl map. unfold first_button at 1. rewrite Hb.
    simpl hd. simpl rising_edges.
    rewrite (IH (S k) _ Hrest).
    rewrite (button_callback_prev e msg b rest s Hf Hb).
    rewrite button_callback_mode, Hb.
    destruct ((b =? 1)%Z && negb (b =? prev_button s)%Z)%bool;
      destruct (is_joy s); reflexivity.
Qed.

Lemma flips_at_rising_edges_witness :
  flip_positions 1
    [(quiet 1 [], joy_msg [0%Z]); (quiet 2 [], joy_msg [1%Z]);
     (quiet 3 [], joy_msg [1%Z]); (quiet 4 [], joy_msg [0%Z]);
     (quiet 5 [], joy_msg [1%Z])] (init 2 3)
  = rising_edges 1 0 [0%Z; 1%Z; 1%Z; 0%Z; 1%Z].
Proof.
  apply (flips_at_rising_edges
           [(quiet 1 [], joy_msg [0%Z]); (quiet 2 [], joy_msg [1%Z]);
            (quiet 3 [], joy_msg [1%Z]); (quiet 4 [], joy_msg [0%Z]);
            (quiet 5 [], joy_msg [1%Z])] 1 (init 2 3)).
  repeat constructor; simpl; discriminate.
Defined.

(** ** Mode, bag and recording flag *)

Lemma flags_kept (s s' : node) :
  recording_active s' = recording_active s ->
  bag_open s' = bag_open s ->
  recording_active s = bag_open s -> recording_active s' = bag_open s'.
Proof. intros -> ->. tauto. Qed.

Lemma flags_close (e : env) (s : node) :
  recording_active s = bag_open s ->
  recording_active (exec (_close_bag e) s) = bag_open (exec (_close_bag e) s).
Proof.
  intros H. unfold exec. rewrite _close_bag_eq.
  destruct (writer s); [destruct (close_raises e)|]; simpl;
    [exact H|reflexivity|reflexivity].
Qed.

Lemma flags_button (e : env) (msg : Joy) (s : node) :
  recording_active s = bag_open s ->
  recording_active (exec (button_callback e msg) s)
  = bag_open (exec (button_callback e msg) s).
Proof.
  intros H. unfold exec. destruct (buttons msg) as [|b rest] eqn:Hb.
  - rewrite button_callback_no_button by exact Hb. exact H.
  - rewrite (button_callback_eq e msg b rest s Hb).
    destruct ((b =? 1)%Z && negb (b =? prev_button s)%Z)%bool; [|exact H].
    cbv zeta. destruct (negb (is_joy s)).
    + destruct (bag_open s) eqn:Hbo; cbn [negb].
      * simpl. symmetry. exact Hbo.
      * destruct (open_raises e); simpl; [rewrite Hbo; exact H|reflexivity].
    + pose proof (flags_close e (set_is_joy false s) H) as Hc.
      unfold exec in Hc.
      destruct (_close_bag e (set_is_joy false s)) as [[[]|x] s2];
        simpl in *; exact Hc.
Qed.

Lemma flags_control (e : env) (s : node) :
  recording_active s = bag_open s ->
  recording_active (exec (control_loop e) s)
  = bag_open (exec (control_loop e) s).
Proof.
  intros H. unfold exec. destruct (is_joy s) eqn:Hj.
  - rewrite control_loop_manual by exact Hj.
    destruct (bag_open s) eqn:Hbo; [simpl; rewrite Hbo; exact H|].
    destruct (open_raises e); simpl; [rewrite Hbo; exact H|reflexivity].
  - pose proof (flags_close e s H) as Hc. unfold exec in Hc.
    destruct (bag_open s) eqn:Hbo.
    + destruct (_close_bag e s) as [[[]|x] s1] eqn:Ec.
      * destruct (control_loop_autonomous_effect e s s1 Hj) as
          (speed & steer & evs & _ & E); [rewrite Hbo; exact Ec|].
        rewrite E. simpl in *. exact Hc.
      * rewrite (control_loop_close_raises e s x s1 Hj Hbo Ec).
        simpl in *. exact Hc.
    + destruct (control_loop_autonomous_effect e s s Hj) as
        (speed & steer & evs & _ & E); [rewrite Hbo; reflexivity|].
      rewrite E. simpl. rewrite Hbo. exact H.
Qed.

(** X6. In every state the node reaches, [recording_active] equals
    [bag_open]: the two flags never part, whatever raises. *)
Theorem recording_flag_is_bag_open (s : node) :
  reachable s -> recording_active s = bag_open s.
Proof.
  induction 1.
  - reflexivity.
  - destruct (lidar_callback_recording msg s) as (E1 & E2 & _).
    rewrite E1, E2. assumption.
  - apply flags_button. assumption.
  - destruct (sensor_cb_recording e f s) as (E1 & E2 & _).
    rewrite E1, E2. assumption.
  - apply flags_control. assumption.
  - exact IHreachable.
  - apply flags_close. assumption.
Qed.

Lemma recording_flag_is_bag_open_witness :
  recording_active
    (exec (control_loop (cannot_open 3))
       (exec (button_callback (cannot_open 2) (joy_msg [1%Z])) (init 2 3)))
  = bag_open
      (exec (control_loop (cannot_open 3))
         (exec (button_callback (cannot_open 2) (joy_msg [1%Z])) (init 2 3))).
Proof.
  apply recording_flag_is_bag_open.
  apply reach_control. apply reach_button. apply reach_init.
Defined.

(** X7. A tick of [control_loop] on which neither opening nor closing the
    bag raises leaves the mode as it was and the bag open exactly when the
    mode is manual. *)
Theorem control_loop_reconciles (e : env) (s : node) :
  fault_free e ->
  is_joy (exec (control_loop e) s) = is_joy s
  /\ bag_open (exec (control_loop e) s) = is_joy s.
Proof.
  intros [Ho Hc]. unfold exec. destruct (is_joy s) eqn:Hj.
  - rewrite control_loop_manual by exact Hj.
    destruct (bag_open s) eqn:Hbo; [split; assumption|].
    rewrite Ho. simpl. split; [exact Hj|reflexivity].
  - destruct (bag_open s) eqn:Hbo.
    + destruct (control_loop_autonomous_effect e s
                  (snd (_close_bag e s)) Hj) as (speed & steer & evs & _ & E).
      { rewrite Hbo, _close_bag_eq, Hc. destruct (writer s); reflexivity. }
      rewrite E. rewrite _close_bag_eq, Hc.
      destruct (writer s); simpl; split; assumption || reflexivity.
    + destruct (control_loop_autonomous_effect e s s Hj) as
        (speed & steer & evs & _ & E); [rewrite Hbo; reflexivity|].
      rewrite E. simpl. split; assumption.
Qed.

Lemma control_loop_reconciles_witness :
  is_joy (exec (control_loop (quiet 7 [0; 0])) (set_is_joy true (init 2 3)))
  = true
  /\ bag_open (exec (control_loop (quiet 7 [0; 0])) (set_is_joy true (init 2 3)))
     = true.
Proof.
  apply (control_loop_reconciles (quiet 7 [0; 0]) (set_is_joy true (init 2 3))).
  split; reflexivity.
Defined.

(** X8. In manual mode a tick publishes no command and does not call the
    interpreter, and the recorded speeds and steerings stay as they are. *)
Theorem manual_tick_does_not_drive (e : env) (s : node) :
  is_joy s = true ->
  Forall (fun ev => ~ drives ev) (emitted (control_loop e) s)
  /\ recorded_speed (exec (control_loop e) s) = recorded_speed s
  /\ recorded_steer (exec (control_loop e) s) = recorded_steer s.
Proof.
  intros Hj.
  assert (H : exists evs,
             trace (exec (control_loop e) s) = trace s ++ evs
             /\ Forall (fun ev => ~ drives ev) evs
             /\ recorded_speed (exec (control_loop e) s) = recorded_speed s
             /\ recorded_steer (exec (control_loop e) s) = recorded_steer s).
  { unfold exec. rewrite control_loop_manual by exact Hj.
    destruct (bag_open s); [|destruct (open_raises e)].
    - exists []. rewrite app_nil_r. repeat split. constructor.
    - exists [WriterNew (time_now e); LogError InControl RuntimeError].
      simpl. rewrite <- app_assoc. repeat split.
      repeat constructor; intros [].
    - exists [WriterNew (time_now e); WriterOpened (time_now e)].
      simpl. rewrite <- app_assoc. repeat split.
      repeat constructor; intros []. }
  destruct H as (evs & Ht & Hf & H1 & H2).
  rewrite (emitted_app (control_loop e) s evs Ht).
  split; [exact Hf|]. split; assumption.
Qed.

Lemma manual_tick_does_not_drive_witness :
  Forall (fun ev => ~ drives ev)
    (emitted (control_loop (quiet 7 [0; 0])) (set_is_joy true warm_node))
  /\ recorded_speed (exec (control_loop (quiet 7 [0; 0])) (set_is_joy true warm_node))
     = recorded_speed (set_is_joy true warm_node)
  /\ recorded_steer (exec (control_loop (quiet 7 [0; 0])) (set_is_joy true warm_node))
     = recorded_steer (set_is_joy true warm_node).
Proof.
  apply (manual_tick_does_not_drive (quiet 7 [0; 0]) (set_is_joy true warm_node)).
  reflexivity.
Defined.

(** ** A frame that fails half way *)

(** X9. When the write number [k] of a frame raises, the [k] writes before
    it have gone to the bag, the error is logged, the remaining writes are
    skipped and the message counter is not advanced. *)
Theorem sensor_cb_partial_frame (e : env) (f : frame) (h : handle) (k : nat)
    (s : node) :
  recording_active s = true ->
  writer s = Some h ->
  write_raises e = Some k ->
  (k < 6)%nat ->
  emitted (sensor_cb e f) s
  = firstn k (frame_writes e f h) ++ [LogError InSensor RuntimeError]
  /\ msg_counter (exec (sensor_cb e f) s) = msg_counter s.
Proof.
  intros Hr Hw He Hk. destruct s, e. simpl in Hr, Hw, He. subst.
  do 6 (destruct k as [|k];
        [split; [apply emitted_app; simpl; rewrite <- ?app_assoc|];
         reflexivity|]).
  lia.
Qed.

Lemma sensor_cb_partial_frame_witness :
  emitted (sensor_cb (write_fails 2 9) (frame_from 1))
    (exec (_open_bag (quiet 1 [])) (init 2 3))
  = firstn 2 (frame_writes (write_fails 2 9) (frame_from 1) 1%Z)
    ++ [LogError InSensor RuntimeError]
  /\ msg_counter
       (exec (sensor_cb (write_fails 2 9) (frame_from 1))
          (exec (_open_bag (quiet 1 [])) (init 2 3)))
     = msg_counter (exec (_open_bag (quiet 1 [])) (init 2 3)).
Proof.
  apply (sensor_cb_partial_frame (write_fails 2 9) (frame_from 1) 1%Z 2
           (exec (_open_bag (quiet 1 [])) (init 2 3)));
    [reflexivity|reflexivity|reflexivity|lia].
Defined.

(** ** The buffers in every reachable state *)

Lemma take_length (a : list Q) (idx : list Z) (v : list Q) :
  Np.take a idx = Ok v -> length v = length idx.
Proof.
  revert v. induction idx as [|i idx IH]; intros v H; simpl in H.
  - inversion H. reflexivity.
  - destruct (Np.getitem a i) as [x|x]; [|discriminate]. simpl in H.
    destruct (Np.take a idx) as [vs|y]; [|discriminate]. simpl in H.
    inversion H. simpl. rewrite (IH vs eq_refl). reflexivity.
Qed.

Lemma linspace_int_length (stop : Z) (num : nat) :
  length (Np.linspace_int stop num) = num.
Proof. unfold Np.linspace_int. rewrite length_map, length_seq. reflexivity. Qed.

Lemma deque_append_length {A : Type} (m : nat) (d : list A) (x : A) :
  length (deque_append m d x)
  = if (m <? length d + 1)%nat then length d else (length d + 1)%nat.
Proof.
  unfold deque_append. rewrite length_app. simpl length.
  destruct (m <? length d + 1)%nat.
  - destruct d; simpl; [reflexivity|]. rewrite length_app. simpl. lia.
  - rewrite length_app. reflexivity.
Qed.

Lemma deque_append_Forall {A : Type} (P : A -> Prop) (m : nat) (d : list A)
    (x : A) :
  Forall P d -> P x -> Forall P (deque_append m d x).
Proof.
  intros Hd Hx. unfold deque_append.
  assert (H : Forall P (d ++ [x]))
    by (apply Forall_app; split; [exact Hd|repeat constructor; exact Hx]).
  destruct (m <? length (d ++ [x]))%nat; [|exact H].
  destruct (d ++ [x]); [exact H|]. inversion H. assumption.
Qed.

Lemma buffers_inv_same (s s' : node) :
  buffers s' = buffers s -> buffers_inv s -> buffers_inv s'.
Proof.
  unfold buffers, buffers_inv. intros E. inversion E as [[E1 E2 E3 E4]].
  rewrite E1, E2, E3, E4. tauto.
Qed.

Lemma buffers_close (e : env) (s : node) :
  buffers (exec (_close_bag e) s) = buffers s.
Proof.
  unfold exec. rewrite _close_bag_eq.
  destruct (writer s); [destruct (close_raises e)|]; reflexivity.
Qed.

Lemma buffers_button (e : env) (msg : Joy) (s : node) :
  buffers (exec (button_callback e msg) s) = buffers s.
Proof.
  unfold exec. destruct (buttons msg) as [|b rest] eqn:Hb.
  - rewrite button_callback_no_button by exact Hb. reflexivity.
  - rewrite (button_callback_eq e msg b rest s Hb).
    destruct ((b =? 1)%Z && negb (b =? prev_button s)%Z)%bool; [|reflexivity].
    cbv zeta. destruct (negb (is_joy s)).
    + destruct (negb (bag_open s)); [destruct (open_raises e)|]; reflexivity.
    + pose proof (buffers_close e (set_is_joy false s)) as Hc.
      unfold exec in Hc.
      destruct (_close_bag e (set_is_joy false s)) as [[[]|x] s2];
        simpl in *; exact Hc.
Qed.

Lemma buffers_control (e : env) (s : node) :
  buffers (exec (control_loop e) s) = buffers s.
Proof.
  unfold exec. destruct (is_joy s) eqn:Hj.
  - rewrite control_loop_manual by exact Hj.
    destruct (bag_open s); [|destruct (open_raises e)]; reflexivity.
  - pose proof (buffers_close e s) as Hc. unfold exec in Hc.
    destruct (bag_open s) eqn:Hbo.
    + destruct (_close_bag e s) as [[[]|x] s1] eqn:Ec.
      * destruct (control_loop_autonomous_effect e s s1 Hj) as
          (speed & steer & evs & _ & E); [rewrite Hbo; exact Ec|].
        rewrite E. simpl in *. exact Hc.
      * rewrite (control_loop_close_raises e s x s1 Hj Hbo Ec).
        simpl in *. exact Hc.
    + destruct (control_loop_autonomous_effect e s s Hj) as
        (speed & steer & evs & _ & E); [rewrite Hbo; reflexivity|].
      rewrite E. reflexivity.
Qed.

Lemma buffers_sensor (e : env) (f : frame) (s : node) :
  buffers (exec (sensor_cb e f) s) = buffers s.
Proof.
  destruct s, e.
  unfold sensor_cb, sensor_cb_body, writer_write. unfold_monad. simpl.
  destruct recording_active0; [|reflexivity].
  destruct writer0; [|reflexivity]. simpl.
  destruct write_raises0 as [k|]; [|reflexivity].
  do 6 (destruct k as [|k]; [reflexivity|]). reflexivity.
Qed.

Lemma buffers_inv_lidar (msg : LaserScan) (s : node) :
  buffers_inv s -> buffers_inv (exec (lidar_callback msg) s).
Proof.
  intros (Hl & Hb & Hf).
  pose proof (lidar_callback_cases msg s) as H. cbv zeta in H. unfold exec.
  destruct (Np.take _ _) as [picked|x] eqn:Et; rewrite H.
  - rewrite push_fields. unfold buffers_inv. simpl.
    rewrite !deque_append_length, <- Hl.
    split; [reflexivity|]. split.
    + destruct (seq_len s <? length (buff_scans s) + 1)%nat eqn:E;
        [exact Hb|apply Nat.ltb_ge in E; exact E].
    + apply deque_append_Forall; [exact Hf|].
      unfold Np.array32. rewrite length_map, (take_length _ _ _ Et).
      apply linspace_int_length.
  - unfold buffers_inv. simpl. repeat split; assumption.
Qed.

Lemma buffers_inv_reachable (s : node) : reachable s -> buffers_inv s.
Proof.
  induction 1.
  - repeat split; simpl; [lia|constructor].
  - apply buffers_inv_lidar. assumption.
  - apply (buffers_inv_same s); [apply buffers_button|assumption].
  - apply (buffers_inv_same s); [apply buffers_sensor|assumption].
  - apply (buffers_inv_same s); [apply buffers_control|assumption].
  - exact IHreachable.
  - apply (buffers_inv_same s); [apply buffers_close|assumption].
Qed.

(** X10. In every state the node reaches, the scan deque and the timestamp
    deque have the same length, at most [seq_len], and every buffered scan
    has exactly [num_ranges] readings. *)
Theorem reachable_buffers (s : node) : reachable s -> buffers_inv s.
Proof. apply buffers_inv_reachable. Qed.

Lemma reachable_buffers_witness : buffers_inv warm_node.
Proof.
  apply reachable_buffers. unfold warm_node.
  repeat apply reach_lidar. apply reach_init.
Defined.

(** ** A full buffer always reaches the interpreter *)

Lemma stack_uniform (nr : nat) (scans : list (list Q)) :
  scans <> [] ->
  Forall (fun scan => length scan = nr) scans ->
  Np.stack scans = Ok scans /\ length (hd [] scans) = nr.
Proof.
  intros Hne Hf. destruct scans as [|r rows]; [contradiction|].
  inversion Hf as [|? ? Hr Hrows]; subst. simpl. split; [|reflexivity].
  assert (E : forallb (fun r' => (length r' =? length r)%nat) rows = true).
  { apply forallb_forall. intros r' Hin. apply Nat.eqb_eq.
    rewrite Forall_forall in Hrows. apply Hrows. exact Hin. }
  rewrite E. reflexivity.
Qed.

Lemma dt_full_length (sl : nat) (ts : list Q) :
  length ts = sl -> (1 <= sl)%nat ->
  exists dt, dt_full sl ts = Ok dt /\ length dt = sl.
Proof.
  intros Hlen Hsl.
  destruct (Np.all_ge0 (Np.diff32 (Np.array32 ts))) eqn:E.
  - eexists. split; [apply dt_full_monotone; assumption|].
    simpl. rewrite diff32_length. lia.
  - eexists. split; [apply dt_full_fallback; assumption|].
    simpl. rewrite repeat_length. lia.
Qed.

Lemma build_input_full (s : node) :
  buffers_inv s ->
  (1 <= seq_len s)%nat ->
  (1 <= num_ranges s)%nat ->
  (seq_len s <= length (buff_scans s))%nat ->
  exists inp,
    build_input (seq_len s) (num_ranges s) (buff_scans s) (buff_ts s) = Ok inp
    /\ min_max_defined inp = Ok tt
    /\ range_channel inp = buff_scans s.
Proof.
  intros (Hl & Hb & Hf) Hsl Hnr Hfull.
  assert (Hlen : length (buff_scans s) = seq_len s) by lia.
  assert (Hne : buff_scans s <> []).
  { intros E. rewrite E in Hlen. simpl in Hlen. lia. }
  destruct (stack_uniform (num_ranges s) (buff_scans s) Hne Hf) as [Es Eh].
  destruct (dt_full_length (seq_len s) (buff_ts s)) as (dt & Ed & Ld);
    [lia|exact Hsl|].
  assert (Eb : exists inp,
             build_input (seq_len s) (num_ranges s) (buff_scans s) (buff_ts s)
             = Ok inp).
  { unfold build_input. rewrite Es. simpl. rewrite Ed. simpl.
    unfold Np.stack2, Np.repeat_cols. rewrite length_map, Ld, Hlen, Eh.
    rewrite !Nat.eqb_refl. simpl. eexists. reflexivity. }
  destruct Eb as [inp Eb]. exists inp. split; [exact Eb|].
  destruct (build_input_channels _ _ _ _ _ Eb) as (dt' & _ & _ & Er).
  split; [|exact Er].
  unfold min_max_defined. unfold range_channel in Er.
  destruct (buff_scans s) as [|r rows]; [contradiction|].
  destruct inp as [|row inp']; [discriminate|].
  simpl in Er. inversion Er as [[Erow Erest]].
  inversion Hf as [|? ? Hr _]; subst.
  simpl. rewrite length_map in Hr.
  destruct (length row =? 0)%nat eqn:E0; [|reflexivity].
  apply Nat.eqb_eq in E0. lia.
Qed.

(** X11. Once [seq_len] scans are buffered, every call of [dnn_output] in a
    reachable state (with a model of at least one timestep and one range
    bin) gets as far as the interpreter: stacking, the delta array and the
    shape checks never raise, and the input handed over has the buffered
    scans as its range channel.  Only the interpreter, or an output with
    fewer than two values, can make the result neutral. *)
Theorem inference_reaches_interpreter (e : env) (s : node) :
  reachable s ->
  (1 <= seq_len s)%nat ->
  (1 <= num_ranges s)%nat ->
  (seq_len s <= length (buff_scans s))%nat ->
  exists inp rest,
    build_input (seq_len s) (num_ranges s) (buff_scans s) (buff_ts s) = Ok inp
    /\ range_channel inp = buff_scans s
    /\ emitted (dnn_output e) s = Invoke inp :: rest
    /\ (forall o0 o1 more,
           interpreter e inp = Ok (o0 :: o1 :: more) ->
           fst (dnn_output e s) = Ok (o0, o1) /\ rest = []).
Proof.
  intros Hr Hsl Hnr Hfull.
  destruct (build_input_full s (buffers_inv_reachable s Hr) Hsl Hnr Hfull)
    as (inp & Eb & Em & Er).
  assert (Esnap : snapshot s = Some (buff_scans s, buff_ts s)).
  { unfold snapshot.
    destruct (length (buff_scans s) <? seq_len s)%nat eqn:E; [|reflexivity].
    apply Nat.ltb_lt in E. lia. }
  assert (Ebody : dnn_body e s
                  = match interpreter e inp with
                    | Ok out =>
                        match Np.getitem out 0, Np.getitem out 1 with
                        | Ok o0, Ok o1 =>
                            (Ok (o0, o1), set_trace (trace s ++ [Invoke inp]) s)
                        | Raise x, _ | _, Raise x =>
                            (Raise x, set_trace (trace s ++ [Invoke inp]) s)
                        end
                    | Raise x =>
                        (Raise x, set_trace (trace s ++ [Invoke inp]) s)
                    end).
  { unfold dnn_body. unfold_monad. rewrite Esnap, Eb, Em.
    destruct (interpreter e inp) as [out|x]; [|reflexivity].
    destruct (Np.getitem out 0) as [o0|x]; [|reflexivity].
    destruct (Np.getitem out 1) as [o1|x]; reflexivity. }
  assert (Hcases :
            (exists r, dnn_output e s
                       = (Ok r, set_trace (trace s ++ [Invoke inp]) s)
                       /\ forall o0 o1 more,
                            interpreter e inp = Ok (o0 :: o1 :: more) ->
                            r = (o0, o1))
            \/ (exists x,
                   dnn_output e s
                   = (Ok (0.0, 0.0),
                      set_trace
                        ((trace s ++ [Invoke inp]) ++ [LogError InDnn x]) s)
                   /\ forall o0 o1 more,
                        interpreter e inp <> Ok (o0 :: o1 :: more))).
  { unfold dnn_output, try_except. rewrite Ebody.
    destruct (interpreter e inp) as [out|x].
    - destruct out as [|o0 [|o1 more]].
      + right. exists IndexError. split; [destruct s; reflexivity|].
        intros; discriminate.
      + right. exists IndexError. split; [|intros; discriminate].
        rewrite getitem_head. destruct s. reflexivity.
      + left. exists (o0, o1). rewrite getitem_head.
        assert (E1 : Np.getitem (o0 :: o1 :: more) 1 = Ok o1).
        { unfold Np.getitem. cbv zeta. change (1 <? 0)%Z with false.
          cbv iota. cbn [orb].
          destruct (Z.of_nat (length (o0 :: o1 :: more)) <=? 1)%Z eqn:E;
            [apply Z.leb_le in E; simpl length in E; lia|reflexivity]. }
        rewrite E1. split; [reflexivity|].
        intros a b m H. inversion H. reflexivity.
    - right. exists x. split; [destruct s; reflexivity|]. intros; discriminate. }
  exists inp.
  destruct Hcases as [(r & E & Hr')|(x & E & Hno)].
  - exists []. split; [exact Eb|]. split; [exact Er|]. split.
    + apply emitted_app. unfold exec. rewrite E. reflexivity.
    + intros o0 o1 more Hi. rewrite E. simpl.
      rewrite (Hr' o0 o1 more Hi). split; reflexivity.
  - exists [LogError InDnn x]. split; [exact Eb|]. split; [exact Er|]. split.
    + apply emitted_app. unfold exec. rewrite E. simpl.
      rewrite <- app_assoc. reflexivity.
    + intros o0 o1 more Hi. exfalso. exact (Hno o0 o1 more Hi).
Qed.

Lemma inference_reaches_interpreter_witness :
  exists inp rest,
    build_input (seq_len warm_node) (num_ranges warm_node)
      (buff_scans warm_node) (buff_ts warm_node) = Ok inp
    /\ range_channel inp = buff_scans warm_node
    /\ emitted (dnn_output (quiet 0 [0.5; 0.25])) warm_node = Invoke inp :: rest
    /\ (forall o0 o1 more,
           interpreter (quiet 0 [0.5; 0.25]) inp = Ok (o0 :: o1 :: more) ->
           fst (dnn_output (quiet 0 [0.5; 0.25]) warm_node) = Ok (o0, o1)
           /\ rest = []).
Proof.
  apply (inference_reaches_interpreter (quiet 0 [0.5; 0.25]) warm_node).
  - unfold warm_node. repeat apply reach_lidar. apply reach_init.
  - vm_compute. lia.
  - vm_compute. lia.
  - vm_compute. lia.
Defined.
